(** * Rate-controlled load-generation harness of the Azure key-manager tests

  A shallow embedding of [tests/az_asr_test.py] and
  [tests/az_translation_test.py]: the credential cache kept in the class
  variables of [AzureKeyManager] / [AzureTranslationKeyManager], the four
  request functions, the even-rate dispatcher and the summary computed by
  [run_test_even_rpm].

  Conventions of the embedding.
  - Python [float] values (clock readings, latencies, rates) are exact
    rationals [Q]; rounding is not modelled.
  - A Python [str] is a [string] holding its UTF-8 bytes.  Substring tests
    agree on both views because UTF-8 is self-synchronising; [len] and
    slices count code points.
  - The replies of the key-manager service are values of small types that
    keep what the scripts look at: whether the reply is a JSON object,
    and the truthiness of its entries.  A credential payload is an object
    with two string entries, [key] and [region].
  - The environment of a function (clock, files, network) is an explicit
    argument; what the function does to the outside world is a list of
    [event]s.  [print] calls are left out. *)

From Stdlib Require Import ZArith QArith Qround String Ascii List Lia Lqa.
From stdpp Require Import base gmap strings list pretty.

Open Scope string_scope.
Open Scope list_scope.

(** ** Python primitives used by the scripts *)

Module Py.

(** A byte [10xxxxxx] continues a UTF-8 code point. *)
Definition is_continuation (a : ascii) : bool :=
  let n := nat_of_ascii a in (128 <=? n)%nat && (n <? 192)%nat.

(** [len(s)]: the number of code points. *)
Fixpoint len (s : string) : nat :=
  match s with
  | EmptyString => 0
  | String a s' => if is_continuation a then len s' else S (len s')
  end.

(** [s[:n]]: the first [n] code points. *)
Fixpoint slice_to (n : nat) (s : string) : string :=
  match s with
  | EmptyString => EmptyString
  | String a s' =>
      if is_continuation a then String a (slice_to n s')
      else match n with
           | O => EmptyString
           | S n' => String a (slice_to n' s')
           end
  end.

(** [s.lower()], on the ASCII letters.  The two code points outside ASCII
    whose lower case contains an ASCII letter (U+0130, U+212A) cannot
    create an occurrence of the words searched for below. *)
Definition lower_ascii (a : ascii) : ascii :=
  let n := nat_of_ascii a in
  if (65 <=? n)%nat && (n <=? 90)%nat then ascii_of_nat (n + 32) else a.

Fixpoint lower (s : string) : string :=
  match s with
  | EmptyString => EmptyString
  | String a s' => String (lower_ascii a) (lower s')
  end.

(** [sub in s] on strings. *)
Fixpoint contains (sub s : string) : bool :=
  if String.prefix sub s then true
  else match s with
       | EmptyString => false
       | String _ s' => contains sub s'
       end.

(** [sep.join(l)]. *)
Fixpoint join (sep : string) (l : list string) : string :=
  match l with
  | [] => ""
  | [x] => x
  | x :: l' => x +:+ sep +:+ join sep l'
  end.

(** Truthiness of a [str]. *)
Definition truthy (s : string) : bool :=
  match s with EmptyString => false | _ => true end.

(** [int(x)] on a float: truncation towards zero. *)
Definition int (x : Q) : Z := Z.quot (Qnum x) (Z.pos (Qden x)).

(** [max(a, b)] on floats. *)
Definition max (a b : Q) : Q := if Qle_bool b a then a else b.

(** [min(a, b)] on floats. *)
Definition min (a b : Q) : Q := if Qle_bool a b then a else b.

End Py.

(** ** Events: what a function does to the outside world *)

Inductive event :=
| EvAcquire                                   (* entering [with cls._lock] *)
| EvRelease                                   (* leaving it *)
| EvReadSlot                                  (* reading [cls.current_key] *)
| EvSleep (seconds : Q)                       (* [time.sleep] *)
| EvTargetPost (endpoint : string) (timeout : Z)
                                            (* [requests.post] to Azure *)
| EvStatusPost (key : string) (code : Z) (note : string).
                                            (* POST [.../keys/status] *)

Definition is_status_post (e : event) : bool :=
match e with EvStatusPost _ _ _ => true | _ => false end.

Definition is_target_post (e : event) : bool :=
match e with EvTargetPost _ _ => true | _ => false end.

Definition is_sleep (e : event) : bool :=
match e with EvSleep _ => true | _ => false end.

Definition count_events (p : event → bool) (tr : list event) : nat :=
length (filter (λ e, p e = true) tr).

(** ** The credential cache: [AzureKeyManager] and
     [AzureTranslationKeyManager]

  The two classes have the same text up to the URL path and the pause of
  the refresher (5 s and 0.5 s). *)

Module KeyManager.

(** [result['data']]: the credential payload. *)
Record Credential := { key : string; region : string }.

(** Identity of a [dict] object. *)
Definition loc := positive.

(** The class variables, together with the [dict] objects they can refer
    to.  [current_key = None] is Python's [current_key = None]. *)
Record ClassState := {
  objects : gmap loc Credential;
  current_key : option loc;
  _last_update_time : Q;
}.

(** The class body: [current_key = None], [_last_update_time = 0]. *)
Definition initial : ClassState :=
  {| objects := ∅; current_key := None; _last_update_time := 0 |}.

(** The credential the slot refers to. *)
Definition slot_value (σ : ClassState) : option Credential :=
  l ← current_key σ; objects σ !! l.

(** *** [get_key] *)

(** A JSON reply of [GET .../keys/get], as far as the refresher looks at
    it: [success] is the truthiness of [result.get('success')], [data] is
    [result['data']] when [result.get('data')] is truthy. *)
Inductive keys_get_reply :=
| GetObject (success : bool) (data : option Credential)
| GetNotObject.

(** What the HTTP exchange inside [get_key] does. *)
Inductive keys_get_http :=
| GetRaises
| GetJson (r : keys_get_reply).

(** [get_key]: any exception becomes [{'success': False, 'error': ...}]. *)
Definition get_key (http : keys_get_http) : keys_get_reply :=
  match http with
  | GetRaises => GetObject false None
  | GetJson r => r
  end.

(** *** [_update_key_periodically] *)

(** One turn of the [while] loop, up to its [time.sleep].  A reply that is
    not an object makes [result.get] raise; the [except] clause of the
    loop swallows it. *)
Definition _update_key_periodically_turn
    (http : keys_get_http) (current_time : Q) (σ : ClassState) : ClassState :=
  match get_key http with
  | GetObject true (Some data) =>
      let l := fresh (dom (objects σ)) in
      {| objects := <[l := data]> (objects σ);
         current_key := Some l;
         _last_update_time := current_time |}
  | GetObject _ _ => σ
  | GetNotObject => σ
  end.

(** The refresh attempts that store a credential. *)
Definition refresh_payload (http : keys_get_http) : option Credential :=
  match http with
  | GetJson (GetObject true (Some data)) => Some data
  | _ => None
  end.

(** *** [get_azure_key_with_retry] *)

(** The pause of a failed attempt: [if attempt < max_retries - 1:
    time.sleep(1)]. *)
Definition retry_sleep (attempt max_retries : nat) : list event :=
  if (attempt <? max_retries - 1)%nat then [EvSleep 1] else [].

(** The [for attempt in range(max_retries)] loop with [remaining] turns
    to go.  [obs attempt] is the class state found at turn [attempt]:
    the refresher may have run in between.  On success the function
    returns the state with the fresh copy allocated, and the copy.
    A slot that refers to no object makes [copy()] raise, which leads to
    the [except] clause: the lock is released before its pause. *)
Fixpoint retry_loop (obs : nat → ClassState) (max_retries remaining : nat)
  : list event * option (ClassState * loc) :=
  match remaining with
  | O => ([], None)
  | S rest =>
      let attempt := (max_retries - remaining)%nat in
      let σ := obs attempt in
      match current_key σ with
      | Some l =>
          match objects σ !! l with
          | Some d =>
              let l' := fresh (dom (objects σ)) in
              ([EvAcquire; EvReadSlot; EvRelease],
               Some ({| objects := <[l' := d]> (objects σ);
                        current_key := current_key σ;
                        _last_update_time := _last_update_time σ |}, l'))
          | None =>
              let '(tr, r) := retry_loop obs max_retries rest in
              ([EvAcquire; EvReadSlot; EvRelease]
                 ++ retry_sleep attempt max_retries ++ tr, r)
          end
      | None =>
          let '(tr, r) := retry_loop obs max_retries rest in
          ([EvAcquire; EvReadSlot] ++ retry_sleep attempt max_retries
             ++ [EvRelease] ++ tr, r)
      end
  end.

Definition get_azure_key_with_retry (obs : nat → ClassState) (max_retries : nat)
  : list event * option (ClassState * loc) :=
  retry_loop obs max_retries max_retries.

(** A caller writing into a [dict] it holds: [d[...] = ...] on the object
    at [l]. *)
Definition setitem (l : loc) (f : Credential → Credential) (σ : ClassState)
  : ClassState :=
  {| objects := alter f l (objects σ);
     current_key := current_key σ;
     _last_update_time := _last_update_time σ |}.

(** What one turn of [get_azure_key_with_retry] that finds the slot empty
    does: it takes the lock, reads the slot, pauses unless it is the last
    turn, and releases the lock. *)
Definition empty_turn (max_retries attempt : nat) : list event :=
  [EvAcquire; EvReadSlot] ++ retry_sleep attempt max_retries ++ [EvRelease].

(** The state after a successful read: the state found, plus the copy. *)
Definition with_copy (σ : ClassState) (d : Credential) : ClassState :=
  {| objects := <[fresh (dom (objects σ)) := d]> (objects σ);
     current_key := current_key σ;
     _last_update_time := _last_update_time σ |}.

(** The turns [from], ..., [from + n - 1], all finding the slot empty. *)
Definition empty_turns (max_retries from n : nat) : list event :=
  concat (map (empty_turn max_retries) (seq from n)).

(** *** The operations on the class state, as a transition system *)

Inductive op :=
| OpRefresh (http : keys_get_http) (current_time : Q)
| OpLookup.     (* the critical section of [get_azure_key_with_retry] *)

Definition lookup_under_lock (σ : ClassState) : ClassState :=
  match snd (get_azure_key_with_retry (λ _, σ) 1) with
  | Some (σ', _) => σ'
  | None => σ
  end.

Definition step (σ : ClassState) (o : op) : ClassState :=
  match o with
  | OpRefresh http t => _update_key_periodically_turn http t σ
  | OpLookup => lookup_under_lock σ
  end.

Definition run (ops : list op) (σ : ClassState) : ClassState :=
  foldl step σ ops.

(** *** Sample states *)

(** A pool that got a credential once, then sees a failing service, a
    reply that is no object, an unsuccessful reply and a reader. *)
Definition one_refresh : ClassState :=
  _update_key_periodically_turn
    (GetJson (GetObject true (Some {| key := "k1"; region := "eastasia" |})))
    10 initial.

(** A cache filled by the refresher between the second and the third
    attempt. *)
Definition filled_late (attempt : nat) : ClassState :=
  if (attempt <? 2)%nat then initial else one_refresh.

End KeyManager.

(** ** The request functions *)

Module Worker.
Import KeyManager.

(** *** Exceptions

    The subclasses of [Exception] that the [except] clauses tell apart.
    [Timeout] is [requests.exceptions.Timeout], [RequestException] any
    other [requests.exceptions.RequestException], [OtherException] any
    other exception, with the name of its class. *)
Inductive exn :=
| Timeout (msg : string)
| RequestException (msg : string)
| FileNotFoundError (msg : string)
| OtherException (cls msg : string).

(** [str(e)]. *)
Definition str (e : exn) : string :=
  match e with
  | Timeout msg | RequestException msg | FileNotFoundError msg
  | OtherException _ msg => msg
  end.

Definition class_name (e : exn) : string :=
  match e with
  | Timeout _ => "requests.exceptions.Timeout"
  | RequestException _ => "requests.exceptions.RequestException"
  | FileNotFoundError _ => "FileNotFoundError"
  | OtherException cls _ => cls
  end.

(** [traceback.format_exc()] while [e] is being handled: the header, the
    stack frames (file names and line numbers, given by the environment)
    and the line that names the exception. *)
Definition format_exc (frames : string) (e : exn) : string :=
  "Traceback (most recent call last):" +:+ frames
    +:+ class_name e +:+ ": " +:+ str e.

(** *** The replies of [POST .../keys/status] *)

Inductive status_reply :=
| ReplyObject (success : bool)  (* a non-empty object; truthiness of its
                                   ['success'] entry *)
| ReplyEmptyObject              (* [{}] *)
| ReplyScalar (truthy : bool).  (* [null], a boolean, a number, a string
                                   or an array *)

Inductive status_http :=
| StatusRaises
| StatusJson (r : status_reply).

(** Truthiness of a reply. *)
Definition reply_truthy (r : status_reply) : bool :=
  match r with
  | ReplyObject _ => true
  | ReplyEmptyObject => false
  | ReplyScalar t => t
  end.

(** [r.get('success')]: only objects have [get]. *)
Definition reply_get_success (r : status_reply) : exn + bool :=
  match r with
  | ReplyObject s => inr s
  | ReplyEmptyObject => inr false
  | ReplyScalar _ =>
      inl (OtherException "AttributeError" "object has no attribute 'get'")
  end.

(** *** The response of the Azure endpoint

    [json] is what [response.json()] does: it raises, or returns a
    payload, of which [B] keeps what the request function looks at. *)
Record Response (B : Type) := {
  status_code : Z;
  text : string;
  content_length : N;        (* [len(response.content)] *)
  json : exn + B;
}.
Arguments status_code {B}.
Arguments text {B}.
Arguments content_length {B}.
Arguments json {B}.

(** What [open(ASR_AUDIO_FILE, 'rb')] and [read()] do: they return the
    bytes of the file, of which the functions take the number, or raise
    [FileNotFoundError] or another exception of the file system. *)
Inductive read_outcome :=
| ReadBytes (n : N)
| ReadNoFile (msg : string)
| ReadError (cls msg : string).

(** *** The environment of one call *)

Record Env (B : Type) := {
  clock_start : Q;                    (* [time.time()] on entry *)
  clock_end : Q;                      (* [time.time()] in [finally] *)
  uuid4 : string;                     (* [uuid.uuid4()] *)
  frames : string;                    (* see [format_exc] *)
  ASR_AUDIO_FILE : string;
  audio_file_ok : bool;               (* [os.path.exists] and [isfile] *)
  audio_read : read_outcome;          (* [open(...).read()] *)
  key_states : nat → ClassState;      (* the cache at each read attempt *)
  target : exn + Response B;          (* [requests.post] to Azure *)
  keys_status : nat → status_http;    (* the [n]-th POST to keys/status *)
}.
Arguments clock_start {B}.
Arguments clock_end {B}.
Arguments uuid4 {B}.
Arguments frames {B}.
Arguments ASR_AUDIO_FILE {B}.
Arguments audio_file_ok {B}.
Arguments audio_read {B}.
Arguments key_states {B}.
Arguments target {B}.
Arguments keys_status {B}.

(** *** The record appended to [result_list]

    The tuple [(success, total_time, time_to_first_chunk, input_size,
    output_size, error_msg, request_id, text)]. *)
Record RequestResult := {
  r_success : bool;
  r_total_time : Q;
  r_time_to_first_chunk : option Q;
  r_input_size : N;
  r_output_size : N;
  r_error_msg : string;
  r_request_id : string;
  r_text : string;
}.

(** *** The local variables of a request function, and its events *)

Record Locals := {
  success : bool;
  error_msg : string;
  input_size : N;
  output_size : N;
  response : option Z;       (* [None], or the status code of the
                                response: all that is read from it after
                                the [try] block *)
  out_text : string;         (* [transcribed_text] / [translated_text] *)
  azure_key_info : option Credential;
  trace : list event;
}.

Definition locals0 : Locals :=
  {| success := false; error_msg := ""; input_size := 0%N; output_size := 0%N;
     response := None; out_text := ""; azure_key_info := None; trace := [] |}.

(** *** Statements: state and exceptions *)

Definition M (A : Type) : Type := Locals → (exn + A) * Locals.

Definition ret {A} (a : A) : M A := λ s, (inr a, s).

Definition bind {A B} (m : M A) (k : A → M B) : M B :=
  λ s, match m s with
       | (inr a, s') => k a s'
       | (inl e, s') => (inl e, s')
       end.

Definition raise {A} (e : exn) : M A := λ s, (inl e, s).

Definition gets {A} (f : Locals → A) : M A := λ s, (inr (f s), s).

Definition modify (f : Locals → Locals) : M unit := λ s, (inr tt, f s).

Definition lift {A} (r : exn + A) : M A :=
  match r with inl e => raise e | inr a => ret a end.

Notation "'let*' x ':=' m 'in' k" := (bind m (λ x, k))
  (at level 10, x name, m at level 100, k at level 200).

#[global] Instance M_ret : MRet M := @ret.
#[global] Instance M_bind : MBind M := λ A B k m, bind m k.

Definition set_success (b : bool) : M unit :=
  modify (λ s, {| success := b; error_msg := error_msg s;
                  input_size := input_size s; output_size := output_size s;
                  response := response s; out_text := out_text s;
                  azure_key_info := azure_key_info s; trace := trace s |}).

Definition set_error_msg (m : string) : M unit :=
  modify (λ s, {| success := success s; error_msg := m;
                  input_size := input_size s; output_size := output_size s;
                  response := response s; out_text := out_text s;
                  azure_key_info := azure_key_info s; trace := trace s |}).

Definition set_input_size (n : N) : M unit :=
  modify (λ s, {| success := success s; error_msg := error_msg s;
                  input_size := n; output_size := output_size s;
                  response := response s; out_text := out_text s;
                  azure_key_info := azure_key_info s; trace := trace s |}).

Definition set_output_size (n : N) : M unit :=
  modify (λ s, {| success := success s; error_msg := error_msg s;
                  input_size := input_size s; output_size := n;
                  response := response s; out_text := out_text s;
                  azure_key_info := azure_key_info s; trace := trace s |}).

Definition set_response (code : Z) : M unit :=
  modify (λ s, {| success := success s; error_msg := error_msg s;
                  input_size := input_size s; output_size := output_size s;
                  response := Some code; out_text := out_text s;
                  azure_key_info := azure_key_info s; trace := trace s |}).

Definition set_out_text (t : string) : M unit :=
  modify (λ s, {| success := success s; error_msg := error_msg s;
                  input_size := input_size s; output_size := output_size s;
                  response := response s; out_text := t;
                  azure_key_info := azure_key_info s; trace := trace s |}).

Definition set_azure_key_info (c : option Credential) : M unit :=
  modify (λ s, {| success := success s; error_msg := error_msg s;
                  input_size := input_size s; output_size := output_size s;
                  response := response s; out_text := out_text s;
                  azure_key_info := c; trace := trace s |}).

Definition emit (evs : list event) : M unit :=
  modify (λ s, {| success := success s; error_msg := error_msg s;
                  input_size := input_size s; output_size := output_size s;
                  response := response s; out_text := out_text s;
                  azure_key_info := azure_key_info s;
                  trace := trace s ++ evs |}).

Definition read_audio (r : read_outcome) : M N :=
  match r with
  | ReadBytes n => ret n
  | ReadNoFile msg => raise (FileNotFoundError msg)
  | ReadError cls msg => raise (OtherException cls msg)
  end.

(** *** [report_status] and [report_key_status_safe] *)

(** [report_status]: an exception becomes
    [{'success': False, 'error': ...}]. *)
Definition report_status (http : status_http) : status_reply :=
  match http with
  | StatusRaises => ReplyObject false
  | StatusJson r => r
  end.

(** [report_key_status_safe].  Code 200 returns at once.  Otherwise the
    status is posted; a truthy reply without [get] raises inside the
    [try], and the [except] clause answers
    [{'success': False, 'error': ...}]. *)
Definition report_key_status_safe {B} (env : Env B)
    (key : string) (status_code : Z) (note : string) : M status_reply :=
  if (status_code =? 200)%Z then ret (ReplyObject true)
  else
    let* n := gets (λ s, count_events is_status_post (trace s)) in
    emit [EvStatusPost key status_code note];;
    let result := report_status (keys_status env n) in
    match result with
    | ReplyScalar true => ret (ReplyObject false)
    | _ => ret result
    end.

(** *** What the four functions share *)

(** [AzureKeyManager.get_azure_key_with_retry()], with its default of
    three attempts; the function keeps the [dict] it is handed. *)
Definition acquire_key {B} (env : Env B) : M (option Credential) :=
  let '(evs, r) := get_azure_key_with_retry (key_states env) 3 in
  emit evs;;
  let info := match r with
              | Some (σ, l) => objects σ !! l
              | None => None
              end in
  set_azure_key_info info;;
  ret info.

(** The branches for the status codes 429, 401/403/404 and the final
    [else]; [guarded] tells whether the 429 branch tests
    [result_ and result_.get('success')] or only
    [result_.get('success')]. *)
Definition rate_limited {B} (env : Env B) (guarded : bool)
    (azure_key request_id : string) : M unit :=
  set_error_msg ("请求过多 (429) (ID: " +:+ request_id +:+ ")");;
  let* result_ := report_key_status_safe env azure_key 429 "Rate limit exceeded" in
  if guarded && negb (reply_truthy result_) then ret tt
  else (lift (reply_get_success result_);; ret tt).

Definition key_invalid {B} (env : Env B)
    (azure_key request_id : string) (status_code : Z) : M unit :=
  set_error_msg ("密钥无效 (" +:+ pretty status_code +:+ ") (ID: "
                 +:+ request_id +:+ ")");;
  report_key_status_safe env azure_key status_code
        ("Key invalid: " +:+ pretty status_code);;
  ret tt.

Definition other_status {B} (env : Env B) (r : Response B)
    (azure_key request_id : string) : M unit :=
  let status_code := status_code r in
  let msg := "HTTP错误 (" +:+ pretty status_code +:+ ") (ID: "
             +:+ request_id +:+ ")" in
  set_error_msg (if Py.truthy (text r)
                 then msg +:+ " | 响应: " +:+ Py.slice_to 200 (text r)
                 else msg);;
  report_key_status_safe env azure_key status_code
        ("HTTP error: " +:+ pretty status_code);;
  ret tt.

(** The [except] clauses.  [with_fnf] tells whether the function has an
    [except FileNotFoundError] clause. *)
Definition except_clauses {B} (env : Env B) (with_fnf : bool)
    (request_id : string) (e : exn) : M unit :=
  let unexpected :=
    set_error_msg ("意外错误: " +:+ format_exc (frames env) e +:+ " (ID: "
                   +:+ request_id +:+ ")");;
    let* info := gets azure_key_info in
    match info with
    | Some c =>
        report_key_status_safe env (key c) 500
              ("Unexpected error: " +:+ Py.slice_to 100 (str e));;
        ret tt
    | None => ret tt
    end in
  match e with
  | Timeout _ =>
      set_error_msg ("请求超时 (ID: " +:+ request_id +:+ ")");;
      let* info := gets azure_key_info in
      match info with
      | Some c =>
          report_key_status_safe env (key c) 408 "Request timeout";;
          ret tt
      | None => ret tt
      end
  | RequestException _ =>
      let msg := "请求异常: " +:+ str e +:+ " (ID: " +:+ request_id +:+ ")" in
      set_error_msg msg;;
      let* resp := gets response in
      match resp with
      | Some code =>
          set_error_msg (msg +:+ " | 状态码: " +:+ pretty code);;
          let* info := gets azure_key_info in
          match info with
          | Some c =>
              report_key_status_safe env (key c) code
                    ("Request exception: " +:+ Py.slice_to 100 (str e));;
              ret tt
          | None => ret tt
          end
      | None => ret tt
      end
  | FileNotFoundError _ =>
      if with_fnf then set_error_msg (str e) else unexpected
  | OtherException _ _ => unexpected
  end.

(** What a call leaves behind: how it ended, the list it appended to and
    its events. *)
Record Outcome := {
  exit : exn + unit;
  result_list : list RequestResult;
  events : list event;
}.

(** [try: body / except ...: handlers / finally: append the record]. *)
Definition try_except_finally {B} (env : Env B) (request_id : string)
    (body : M unit) (handlers : exn → M unit)
    (result_list : list RequestResult) : Outcome :=
  let '(r, s) :=
    match body locals0 with
    | (inl e, s1) => handlers e s1
    | (inr _, s1) => (inr tt, s1)
    end in
  {| exit := r;
     result_list := result_list ++
       [{| r_success := success s;
           r_total_time := clock_end env - clock_start env;
           r_time_to_first_chunk := None;
           r_input_size := input_size s;
           r_output_size := output_size s;
           r_error_msg := error_msg s;
           r_request_id := request_id;
           r_text := out_text s |}];
     events := trace s |}.

(** *** [test_transcription_api] ([az_asr_test.py]) *)

(** The payload of a 2xx response, as [test_transcription_api] inspects
    it.  [TrIllTyped late] is a payload on which the inspection raises,
    before ([late = false]) or after [success = True] has been set. *)
Inductive transcription_body :=
| TrChannels (lexical : option string)
    (* ['results'] with ['channels']; the ['lexical'] entry of the first
       channel, if there is one *)
| TrCombinedPhrases (text : option string)
    (* ['combinedPhrases']; the ['text'] of the first phrase, if any *)
| TrOther (dumps : string)
    (* neither; [json.dumps(result_data)] *)
| TrIllTyped (late : bool) (cls msg : string).

Definition status_in (status_code : Z) (codes : list Z) : bool :=
  existsb (Z.eqb status_code) codes.

Definition is_2xx (status_code : Z) : bool :=
  ((200 <=? status_code) && (status_code <? 300))%Z.

(** The [try] block. *)
Definition test_transcription_api_try (env : Env transcription_body) (request_id : string) : M unit :=
  (if audio_file_ok env then ret tt
   else raise (FileNotFoundError
                 ("音频文件未找到: " +:+ ASR_AUDIO_FILE env)));;
  let* info := acquire_key env in
  match info with
  | None => raise (OtherException "Exception" "无法获取可用的Azure密钥")
  | Some info =>
      let azure_key := key info in
      let endpoint := "https://" +:+ region info +:+
        ".cognitiveservices.azure.com/speechtotext/transcriptions:transcribe" in
      let* n := read_audio (audio_read env) in
      set_input_size n;;
      emit [EvTargetPost endpoint 60];;
      let* response := lift (target env) in
      set_response (status_code response);;
      let status_code := status_code response in
      if (status_code =? 429)%Z then
        rate_limited env true azure_key request_id
      else if status_in status_code [401; 403; 404]%Z then
        key_invalid env azure_key request_id status_code
      else if is_2xx status_code then
        let* result_data := lift (json response) in
        set_output_size (content_length response);;
        match result_data with
        | TrChannels (Some lexical) =>
            set_success true;; set_out_text lexical
        | TrChannels None =>
            set_success true;; set_success false;;
            set_error_msg ("转录响应格式异常: 未找到文本内容 (ID: "
                           +:+ request_id +:+ ")")
        | TrCombinedPhrases (Some text) =>
            set_success true;; set_out_text text
        | TrCombinedPhrases None =>
            set_success true;; set_success false;;
            set_error_msg ("转录响应格式异常(新格式): 未找到文本内容 (ID: "
                           +:+ request_id +:+ ")")
        | TrOther dumps =>
            set_success false;;
            set_error_msg ("转录响应格式异常: " +:+ Py.slice_to 200 dumps
                           +:+ " (ID: " +:+ request_id +:+ ")")
        | TrIllTyped late cls msg =>
            (if late then set_success true else ret tt);;
            raise (OtherException cls msg)
        end;;
        let* ok := gets success in
        let* msg := gets error_msg in
        (if ok
             then report_key_status_safe env azure_key 200
                    "Transcription success"
             else report_key_status_safe env azure_key 200
                    ("Transcription format error: " +:+ Py.slice_to 100 msg));;
        ret tt
      else other_status env response azure_key request_id
  end.

Definition test_transcription_api (env : Env transcription_body)
    (thread_id : string) (result_list : list RequestResult) : Outcome :=
  let request_id := "Transcription-" +:+ thread_id +:+ "-" +:+ uuid4 env in
  try_except_finally env request_id
    (test_transcription_api_try env request_id)
    (except_clauses env true request_id)
    result_list.

(** *** [test_asr_short_audio_api] ([az_asr_test.py]) *)

Inductive asr_body :=
| AsrObject (RecognitionStatus : option string) (DisplayText : option string)
| AsrNotObject.     (* [result_data.get] raises *)

(** The [try] block. *)
Definition test_asr_short_audio_api_try (env : Env asr_body) (request_id : string) : M unit :=
  (if audio_file_ok env then ret tt
   else raise (FileNotFoundError
                 ("ASR音频文件未找到: " +:+ ASR_AUDIO_FILE env)));;
  let* info := acquire_key env in
  match info with
  | None => raise (OtherException "Exception" "无法获取可用的Azure密钥")
  | Some info =>
      let azure_key := key info in
      let endpoint := "https://" +:+ region info +:+
        ".stt.speech.microsoft.com/speech/recognition/conversation/cognitiveservices/v1" in
      let* n := read_audio (audio_read env) in
      set_input_size n;;
      emit [EvTargetPost endpoint 45];;
      let* response := lift (target env) in
      set_response (status_code response);;
      let status_code := status_code response in
      if (status_code =? 429)%Z then
        rate_limited env false azure_key request_id
      else if status_in status_code [401; 403; 404]%Z then
        key_invalid env azure_key request_id status_code
      else if is_2xx status_code then
        let* result_data := lift (json response) in
        set_output_size (content_length response);;
        match result_data with
        | AsrNotObject =>
            raise (OtherException "AttributeError"
                     "object has no attribute 'get'")
        | AsrObject status display =>
            let recognition_status := default "Unknown" status in
            if String.eqb recognition_status "Success" then
              set_success true;;
              set_out_text (default "未找到识别文本" display);;
              report_key_status_safe env azure_key 200 "ASR success";;
              ret tt
            else if String.eqb recognition_status "NoMatch" then
              set_success false;;
              set_error_msg ("ASR无匹配: 未能识别语音内容 (ID: "
                             +:+ request_id +:+ ")");;
              report_key_status_safe env azure_key 200 "ASR no match";;
              ret tt
            else
              set_success false;;
              set_error_msg ("ASR非成功状态: " +:+ recognition_status
                             +:+ " (ID: " +:+ request_id +:+ ")");;
              report_key_status_safe env azure_key 200
                    ("ASR recognition failed: " +:+ recognition_status);;
              ret tt
        end
      else other_status env response azure_key request_id
  end.

Definition test_asr_short_audio_api (env : Env asr_body)
    (thread_id : string) (result_list : list RequestResult) : Outcome :=
  let request_id := "ASR-" +:+ thread_id +:+ "-" +:+ uuid4 env in
  try_except_finally env request_id
    (test_asr_short_audio_api_try env request_id)
    (except_clauses env true request_id)
    result_list.

(** *** [test_text_translation_api] ([az_translation_test.py]) *)

Inductive translation_body :=
| TlTranslations (text : string)
    (* a non-empty list whose first element has a non-empty
       ['translations'], with the ['text'] of the first *)
| TlNoTranslations
    (* a non-empty list whose first element has none *)
| TlOther (dumps : string)
    (* falsy, or not a list; [json.dumps(result_data)] *)
| TlIllTyped (cls msg : string).

(** [len(json.dumps([{'text': TRANSLATION_TEXT}]))]: the 665 characters
    of the text and 14 of punctuation. *)
Definition translation_request_size : N := 679.

(** The [try] block. *)
Definition test_text_translation_api_try (env : Env translation_body) (request_id : string) : M unit :=
  let* info := acquire_key env in
  match info with
  | None => raise (OtherException "Exception" "无法获取可用的Azure翻译密钥")
  | Some info =>
      let azure_key := key info in
      let endpoint := "https://api.cognitive.microsofttranslator.com/translate" in
      set_input_size translation_request_size;;
      emit [EvTargetPost endpoint 45];;
      let* response := lift (target env) in
      set_response (status_code response);;
      let status_code := status_code response in
      if (status_code =? 429)%Z then
        rate_limited env true azure_key request_id
      else if status_in status_code [401; 403; 404]%Z then
        key_invalid env azure_key request_id status_code
      else if is_2xx status_code then
        let* result_data := lift (json response) in
        set_output_size (content_length response);;
        match result_data with
        | TlTranslations text =>
            set_out_text text;; set_success true;;
            report_key_status_safe env azure_key 200
                  "Translation success";;
            ret tt
        | TlNoTranslations =>
            set_success false;;
            set_error_msg ("翻译响应格式异常: 未找到translations (ID: "
                           +:+ request_id +:+ ")")
        | TlOther dumps =>
            set_success false;;
            set_error_msg ("翻译响应格式异常: " +:+ Py.slice_to 200 dumps
                           +:+ " (ID: " +:+ request_id +:+ ")")
        | TlIllTyped cls msg => raise (OtherException cls msg)
        end;;
        let* ok := gets success in
        let* msg := gets error_msg in
        if ok then ret tt
        else
          report_key_status_safe env azure_key 200
                ("Translation format error: " +:+ Py.slice_to 100 msg);;
          ret tt
      else other_status env response azure_key request_id
  end.

Definition test_text_translation_api (env : Env translation_body)
    (thread_id : string) (result_list : list RequestResult) : Outcome :=
  let request_id := "TextTranslation-" +:+ thread_id +:+ "-" +:+ uuid4 env in
  try_except_finally env request_id
    (test_text_translation_api_try env request_id)
    (except_clauses env false request_id)
    result_list.

(** *** [test_speech_translation_api] ([az_translation_test.py]) *)

Inductive speech_body :=
| SpCombinedPhrases (text : option string)
| SpOther (dumps : string)
| SpIllTyped (cls msg : string).

(** The synthetic two-second WAV file: a header of 44 bytes and 32000
    samples of two bytes. *)
Definition synthetic_audio_size : N := 44 + 32000 * 2.

(** The [try] block. *)
Definition test_speech_translation_api_try (env : Env speech_body) (request_id : string) : M unit :=
  let* info := acquire_key env in
  match info with
  | None => raise (OtherException "Exception" "无法获取可用的Azure翻译密钥")
  | Some info =>
      let azure_key := key info in
      let endpoint := "https://" +:+ region info +:+
        ".cognitiveservices.azure.com/speechtotext/transcriptions:transcribe" in
      set_input_size synthetic_audio_size;;
      emit [EvTargetPost endpoint 60];;
      let* response := lift (target env) in
      set_response (status_code response);;
      let status_code := status_code response in
      if (status_code =? 429)%Z then
        rate_limited env true azure_key request_id
      else if status_in status_code [401; 403; 404]%Z then
        key_invalid env azure_key request_id status_code
      else if is_2xx status_code then
        let* result_data := lift (json response) in
        set_output_size (content_length response);;
        match result_data with
        | SpCombinedPhrases (Some text) =>
            set_out_text text;; set_success true
        | SpCombinedPhrases None =>
            set_success false;;
            set_error_msg ("语音翻译响应格式异常: 未找到文本内容 (ID: "
                           +:+ request_id +:+ ")")
        | SpOther dumps =>
            set_success false;;
            set_error_msg ("语音翻译响应格式异常: " +:+ Py.slice_to 200 dumps
                           +:+ " (ID: " +:+ request_id +:+ ")")
        | SpIllTyped cls msg => raise (OtherException cls msg)
        end;;
        let* ok := gets success in
        let* msg := gets error_msg in
        if ok then ret tt
        else
          report_key_status_safe env azure_key 200
                ("Speech translation format error: " +:+ Py.slice_to 100 msg);;
          ret tt
      else other_status env response azure_key request_id
  end.

Definition test_speech_translation_api (env : Env speech_body)
    (thread_id : string) (result_list : list RequestResult) : Outcome :=
  let request_id := "SpeechTranslation-" +:+ thread_id +:+ "-" +:+ uuid4 env in
  try_except_finally env request_id
    (test_speech_translation_api_try env request_id)
    (except_clauses env false request_id)
    result_list.

(** *** The credential a call obtains, and the kinds of attempts *)

(** The credential [get_azure_key_with_retry] hands to a call in [env]. *)
Definition cached_credential {B} (env : Env B) : option Credential :=
  match snd (get_azure_key_with_retry (key_states env) 3) with
  | Some (σ, l) => objects σ !! l
  | None => None
  end.

(** A call has a credential in hand and sends its request: the audio
    file, where one is used, is there and can be read. *)
Definition request_sent {B} (uses_audio : bool) (env : Env B)
    (c : Credential) : Prop :=
  cached_credential env = Some c ∧
  (uses_audio = true →
   audio_file_ok env = true ∧ ∃ n, audio_read env = ReadBytes n).

(** What a function finds in the payload of a 2xx response. *)
Inductive shape := Expected | NotExpected | Uninspectable.

Definition transcription_shape (b : transcription_body) : shape :=
  match b with
  | TrChannels (Some _) | TrCombinedPhrases (Some _) => Expected
  | TrChannels None | TrCombinedPhrases None | TrOther _ => NotExpected
  | TrIllTyped _ _ _ => Uninspectable
  end.

Definition asr_shape (b : asr_body) : shape :=
  match b with
  | AsrObject status _ =>
      if String.eqb (default "Unknown" status) "Success"
      then Expected else NotExpected
  | AsrNotObject => Uninspectable
  end.

Definition translation_shape (b : translation_body) : shape :=
  match b with
  | TlTranslations _ => Expected
  | TlNoTranslations | TlOther _ => NotExpected
  | TlIllTyped _ _ => Uninspectable
  end.

Definition speech_shape (b : speech_body) : shape :=
  match b with
  | SpCombinedPhrases (Some _) => Expected
  | SpCombinedPhrases None | SpOther _ => NotExpected
  | SpIllTyped _ _ => Uninspectable
  end.

(** The kinds of request attempts made with a credential in hand. *)
Inductive Classification :=
| CSuccess
| CRateLimited
| CCredentialInvalid
| CMalformedResponse
| CUnclassifiedHTTPError
| CTimeout
| CTransportError
| CMissingFile
| CUnexpected.

(** The kind of an attempt that ends in an exception; [with_fnf] tells
    whether the function has an [except FileNotFoundError] clause. *)
Definition classify_exn (with_fnf : bool) (e : exn) : Classification :=
  match e with
  | Timeout _ => CTimeout
  | RequestException _ => CTransportError
  | FileNotFoundError _ => if with_fnf then CMissingFile else CUnexpected
  | OtherException _ _ => CUnexpected
  end.

(** The kind of an attempt, from what the Azure endpoint does: the rate
    limit status, the authentication failures, 2xx with the expected
    payload, 2xx with another payload, any other status, a transport
    timeout, another transport failure. *)
Definition classify {B} (with_fnf : bool) (shape_of : B → shape)
    (env : Env B) : Classification :=
  match target env with
  | inl e => classify_exn with_fnf e
  | inr r =>
      if (status_code r =? 429)%Z then CRateLimited
      else if status_in (status_code r) [401; 403; 404]%Z then CCredentialInvalid
      else if is_2xx (status_code r) then
        match json r with
        | inl e => classify_exn with_fnf e
        | inr b =>
            match shape_of b with
            | Expected => CSuccess
            | NotExpected => CMalformedResponse
            | Uninspectable => CUnexpected
            end
        end
      else CUnclassifiedHTTPError
  end.

(** The number of POSTs to [keys/status] that the functions make for each
    kind of attempt. *)
Definition status_posts_made {B} (env : Env B) (c : Classification) : nat :=
  match c with
  | CSuccess | CMalformedResponse | CMissingFile => 0
  | CRateLimited | CCredentialInvalid | CUnclassifiedHTTPError
  | CTimeout | CUnexpected => 1
  | CTransportError =>
      match target env with
      | inl _ => 0
      | inr r => if (status_code r =? 200)%Z then 0 else 1
      end
  end.

(** One POST for every kind but success. *)
Definition one_post_unless_success (c : Classification) : nat :=
  match c with CSuccess => 0 | _ => 1 end.

(** The key-manager service answers every status report with a JSON
    object. *)
Definition status_replies_are_objects {B} (env : Env B) : Prop :=
  ∀ n, match keys_status env n with
       | StatusJson (ReplyScalar _) => False
       | _ => True
       end.

(** A statement that cannot raise. *)
Definition returns {A} (m : M A) : Prop :=
  ∀ s, ∃ a s', m s = (inr a, s').

(** A request function appends exactly one record and returns. *)
Definition appends_one_and_returns {B}
    (f : Env B → string → list RequestResult → Outcome) : Prop :=
  ∀ env thread_id rl,
    ∃ r, result_list (f env thread_id rl) = rl ++ [r] ∧
         exit (f env thread_id rl) = inr tt.

(** The record of a call that got no credential: a failure whose message
    is the traceback of the exception raised for it. *)
Definition unavailable_record {B} (env : Env B) (request_id message : string)
  : RequestResult :=
  {| r_success := false;
     r_total_time := clock_end env - clock_start env;
     r_time_to_first_chunk := None;
     r_input_size := 0;
     r_output_size := 0;
     r_error_msg :=
       "意外错误: " +:+ format_exc (frames env) (OtherException "Exception" message)
         +:+ " (ID: " +:+ request_id +:+ ")";
     r_request_id := request_id;
     r_text := "" |}.

(** What a request function does when the cache has no credential for it
    (and the audio file, where one is used, is there): it appends one
    failed record that carries [message], returns, and has posted
    nothing. *)
Definition fails_without_network {B}
    (f : Env B → string → list RequestResult → Outcome)
    (uses_audio : bool) (message : string) : Prop :=
  ∀ env thread_id rl,
    snd (get_azure_key_with_retry (key_states env) 3) = None →
    (uses_audio = true → audio_file_ok env = true) →
    ∃ r, result_list (f env thread_id rl) = rl ++ [r] ∧
         r_success r = false ∧
         Py.contains message (r_error_msg r) = true ∧
         exit (f env thread_id rl) = inr tt ∧
         count_events is_target_post (events (f env thread_id rl)) = 0 ∧
         count_events is_status_post (events (f env thread_id rl)) = 0.

(** A request function makes, for every attempt with a credential in
    hand, the number of status reports that [posts] gives for the kind of
    the attempt; [side] is a condition on the environment. *)
Definition reports_by_kind {B}
    (f : Env B → string → list RequestResult → Outcome)
    (shape_of : B → shape) (uses_audio : bool)
    (posts : Env B → Classification → nat) (side : Env B → Prop) : Prop :=
  ∀ env thread_id rl c,
    request_sent uses_audio env c →
    side env →
    count_events is_status_post (events (f env thread_id rl)) =
      posts env (classify uses_audio shape_of env).

(** The state in which an [except] clause leaves the local variables. *)
Definition after_except {B} (env : Env B) (with_fnf : bool)
    (request_id : string) (e : exn) (s : Locals) : Locals :=
  snd (except_clauses env with_fnf request_id e s).

(** The status codes that the [except] clauses report, entered with the
    local variables [s]:
    - without a credential, nothing is reported;
    - with a credential [c], a timeout is reported with 408, an
      unexpected exception with 500, and another transport exception
      only if [response] is set, with the status code of the response
      (which [report_key_status_safe] posts unless it is 200). *)
Definition except_clauses_report {B} (env : Env B) (with_fnf : bool)
    (request_id : string) (s : Locals) : Prop :=
  match azure_key_info s with
  | None => ∀ e, trace (after_except env with_fnf request_id e s) = trace s
  | Some c =>
      (∀ msg,
          trace (after_except env with_fnf request_id (Timeout msg) s) =
            trace s ++ [EvStatusPost (key c) 408 "Request timeout"]) ∧
      (∀ cls msg,
          trace (after_except env with_fnf request_id (OtherException cls msg) s) =
            trace s ++ [EvStatusPost (key c) 500
                          ("Unexpected error: " +:+ Py.slice_to 100 msg)]) ∧
      (∀ msg,
          trace (after_except env with_fnf request_id (RequestException msg) s) =
            match response s with
            | None => trace s
            | Some code =>
                if (code =? 200)%Z then trace s
                else trace s ++ [EvStatusPost (key c) code
                       ("Request exception: " +:+ Py.slice_to 100 msg)]
            end)
  end.

(** When a [try] block raises a transport exception, the function holds
    a credential; and [response] is set only to the status code of the
    response received. *)
Definition transport_failures_hold_key {B}
    (try_block : Env B → string → M unit) : Prop :=
  ∀ env request_id e s,
    try_block env request_id locals0 = (inl e, s) →
    match e with
    | Timeout _ | RequestException _ =>
        is_Some (azure_key_info s) ∧
        response s = match target env with
                     | inl _ => None
                     | inr r => Some (status_code r)
                     end
    | _ => True
    end.

(** *** Sample environments *)

(** The cache stays empty. *)
Definition env_no_key {B} (t : exn + Response B) : Env B :=
  {| clock_start := 0; clock_end := 2; uuid4 := "0000"; frames := "";
     ASR_AUDIO_FILE := "asr_vad_punc_example.wav";
     audio_file_ok := true; audio_read := ReadBytes 1000;
     key_states := λ _, initial;
     target := t;
     keys_status := λ _, StatusJson (ReplyObject true) |}.

(** The cache holds a credential. *)
Definition env_with_key {B} (t : exn + Response B) : Env B :=
  {| clock_start := 0; clock_end := 1; uuid4 := "0000"; frames := "";
     ASR_AUDIO_FILE := "asr_vad_punc_example.wav";
     audio_file_ok := true; audio_read := ReadBytes 1000;
     key_states := λ _, one_refresh;
     target := t;
     keys_status := λ _, StatusJson (ReplyObject true) |}.

Definition response_of {B} (code : Z) (b : exn + B) : exn + Response B :=
  inr {| status_code := code; text := ""; content_length := 2; json := b |}.

(** A 2xx response whose payload has neither of the expected entries. *)
Definition env_malformed : Env transcription_body :=
  env_with_key (response_of 200 (inr (TrOther "{}"))).

(** A rate-limited attempt whose status report the key manager answers
    with [null]. *)
Definition env_rate_limited_null_reply {B} : Env B :=
  {| clock_start := 0; clock_end := 1; uuid4 := "0000"; frames := "";
     ASR_AUDIO_FILE := "asr_vad_punc_example.wav";
     audio_file_ok := true; audio_read := ReadBytes 1000;
     key_states := λ _, one_refresh;
     target := response_of 429 (inl (OtherException "ValueError" ""));
     keys_status := λ _, StatusJson (ReplyScalar false) |}.

(** A rate-limited attempt. *)
Definition env_rate_limited : Env asr_body :=
  env_with_key (response_of 429 (inl (OtherException "ValueError" ""))).

End Worker.

(** ** The dispatcher of [run_test_even_rpm] *)

Module Dispatcher.

Local Open Scope Q_scope.

(** [a < b] on floats. *)
Definition Qlt_bool (a b : Q) : bool := negb (Qle_bool b a).

(** The variables of [dispatcher], and the workers it has started:
    [spawned] lists the indices [i] of the threads ["Request-i"], in the
    order of their start. *)
Record State := {
  request_id : Z;
  next_time : Q;
  spawned : list Z;
}.

(** The body of [if current_time >= next_time:], for the clock reading
    [current_time]: start one worker, advance by one interval, and skip
    the slots that are already in the past. *)
Definition fire (request_interval current_time : Q) (st : State) : State :=
  let spawned := spawned st ++ [request_id st] in
  let next_time := next_time st + request_interval in
  let request_id := (request_id st + 1)%Z in
  if Qlt_bool next_time current_time then
    let skips := Py.int ((current_time - next_time) / request_interval) in
    if (0 <? skips)%Z then
      {| request_id := (request_id + skips)%Z;
         next_time := next_time + inject_Z skips * request_interval;
         spawned := spawned |}
    else
      {| request_id := request_id; next_time := next_time; spawned := spawned |}
  else
    {| request_id := request_id; next_time := next_time; spawned := spawned |}.

(** The pause at the end of a turn, for the second clock reading [now]:
    [time.sleep(min(remaining, 0.1))] if [remaining > 0]. *)
Definition pause (now : Q) (st : State) : option Q :=
  let remaining := next_time st - now in
  if Qlt_bool 0 remaining then Some (Py.min remaining (1 # 10)) else None.

(** One turn of the [while] loop that passed the test of the duration,
    up to its pause. *)
Definition turn (request_interval current_time : Q) (st : State) : State :=
  if Qle_bool (next_time st) current_time
  then fire request_interval current_time st
  else st.

(** The [while not stop_event.is_set()] loop.  Each turn reads the stop
    event and the clock; the loop is run on a list of such readings. *)
Fixpoint dispatcher_loop (start_run_time test_duration_seconds request_interval : Q)
    (readings : list (bool * Q)) (st : State) : State :=
  match readings with
  | [] => st
  | (stop, current_time) :: rest =>
      if stop then st
      else if Qle_bool test_duration_seconds (current_time - start_run_time)
      then st
      else dispatcher_loop start_run_time test_duration_seconds
             request_interval rest (turn request_interval current_time st)
  end.

(** [dispatcher], started at clock reading [t]: [request_id = 0],
    [next_time = time.time()]. *)
Definition dispatcher (start_run_time test_duration_seconds request_interval t : Q)
    (readings : list (bool * Q)) : State :=
  dispatcher_loop start_run_time test_duration_seconds request_interval
    readings {| request_id := 0; next_time := t; spawned := [] |}.

(** The number of whole intervals between the advanced fire time and the
    clock. *)
Definition missed_slots (request_interval current_time : Q) (st : State) : Z :=
  Qfloor ((current_time - (next_time st + request_interval)) / request_interval).

(** A dispatcher at ten requests a second that wakes up late. *)
Definition late_state : State :=
  {| request_id := 7; next_time := 1; spawned := [0; 1; 2; 3; 4; 5; 6]%Z |}.

End Dispatcher.

(** ** The summary of [run_test_even_rpm] *)

Module Aggregator.
Import Worker.

Local Open Scope Q_scope.

(** *** Arithmetic that can fail

    A computation returns a value or raises [ZeroDivisionError]; it also
    records the divisions [/] it performs, as pairs of dividend and
    divisor.  (The one other division of the summary, [// 4], has a
    constant divisor.) *)
Inductive result (A : Type) :=
| Value (a : A)
| ZeroDivisionError.
Arguments Value {A}.
Arguments ZeroDivisionError {A}.

Definition Calc (A : Type) : Type := list (Q * Q) → result A * list (Q * Q).

Definition pure {A} (a : A) : Calc A := λ log, (Value a, log).

Definition and_then {A B} (m : Calc A) (k : A → Calc B) : Calc B :=
  λ log, match m log with
         | (Value a, log') => k a log'
         | (ZeroDivisionError, log') => (ZeroDivisionError, log')
         end.

Notation "'calc' x ':=' m 'in' k" := (and_then m (λ x, k))
  (at level 10, x name, m at level 100, k at level 200).

(** [a / b] on numbers. *)
Definition div (a b : Q) : Calc Q :=
  λ log, if Qeq_bool b 0
         then (ZeroDivisionError, log ++ [(a, b)])
         else (Value (a / b), log ++ [(a, b)]).

(** [sum(...)]: the additions start from 0, from the left. *)
Definition sum (l : list Q) : Q := foldl Qplus 0 l.

Definition of_nat (n : nat) : Q := inject_Z (Z.of_nat n).

(** *** The statistics *)

(** The results with [r[0]] true. *)
Definition successes (test_results : list RequestResult) : list RequestResult :=
  filter (λ r, r_success r = true) test_results.

(** [sum(len(r[7]) for r in test_results if r[0] and r[7])]. *)
Definition text_chars (test_results : list RequestResult) : nat :=
  sum_list_with (λ r, Py.len (r_text r))
    (filter (λ r, r_success r && Py.truthy (r_text r) = true) test_results).

(** [sum(r[4] for r in test_results if r[0]) // 4]. *)
Definition estimated_chars (test_results : list RequestResult) : nat :=
  N.to_nat (N.div (foldr N.add 0%N (map r_output_size (successes test_results))) 4).

(** *** The summary of errors *)

(** The failed results with an error message: [not result[0] and
    result[5]]. *)
Definition failures_with_message (test_results : list RequestResult)
  : list RequestResult :=
  filter (λ r, negb (r_success r) && Py.truthy (r_error_msg r) = true) test_results.

(** [error_stats]: how often each message occurs. *)
Definition error_stats (test_results : list RequestResult) : gmap string nat :=
  foldl (λ stats r,
           if negb (r_success r) && Py.truthy (r_error_msg r)
           then <[r_error_msg r := (default 0 (stats !! r_error_msg r) + 1)%nat]> stats
           else stats)
        ∅ test_results.

(** The keys of [error_type_counts], in the order of the dictionary. *)
Inductive error_type :=
| Error429 | Error400 | ErrorTimeout | ErrorConnection | ErrorOther.

Definition error_types : list error_type :=
  [Error429; Error400; ErrorTimeout; ErrorConnection; ErrorOther].

Definition error_type_name (t : error_type) : string :=
  match t with
  | Error429 => "429错误"
  | Error400 => "400错误"
  | ErrorTimeout => "超时错误"
  | ErrorConnection => "连接错误"
  | ErrorOther => "其他错误"
  end.

#[global] Instance error_type_eq_dec : EqDecision error_type.
Proof. solve_decision. Defined.

(** The [if]/[elif] chain that picks the type of a message. *)
Definition error_type_of (error_msg : string) : error_type :=
  if Py.contains "429" error_msg then Error429
  else if Py.contains "400" error_msg then Error400
  else if Py.contains "timeout" (Py.lower error_msg)
          || Py.contains "超时" error_msg then ErrorTimeout
  else if Py.contains "connection" (Py.lower error_msg)
          || Py.contains "连接" error_msg then ErrorConnection
  else ErrorOther.

(** [error_type_counts]: a count for each of the five keys. *)
Definition type_counts : Type := error_type → nat.

Definition no_errors : type_counts := λ _, 0%nat.

(** [error_type_counts[t] += count]. *)
Definition add_count (t : error_type) (count : nat) (counts : type_counts)
  : type_counts :=
  λ t', if decide (t' = t) then (counts t' + count)%nat else counts t'.

(** The loop over [error_stats.items()]. *)
Definition error_type_counts (stats : gmap string nat) : type_counts :=
  map_fold (λ error_msg count counts,
              add_count (error_type_of error_msg) count counts)
           no_errors stats.

(** The summary: the types with a count above zero, or ["无错误"] when
    [error_stats] is empty. *)
Definition render_counts (counts : type_counts) : string :=
  Py.join " | "
    (take 5
       (omap (λ t, if (0 <? counts t)%nat
                   then Some (error_type_name t +:+ ":" +:+ pretty (counts t) +:+ "次")
                   else None)
             error_types)).

Definition asr_errors_sample (test_results : list RequestResult) : string :=
  let stats := error_stats test_results in
  if decide (stats = ∅) then "无错误"
  else render_counts (error_type_counts stats).

(** [az_translation_test.py] keeps up to five of the distinct messages:
    [" | ".join(list(set(...))[:5])].  The order in which a [set] is
    listed is not specified; [elements] fixes one. *)
Definition translation_errors_sample (test_results : list RequestResult) : string :=
  let error_messages : gset string :=
    list_to_set (map r_error_msg (failures_with_message test_results)) in
  Py.join " | " (take 5 (elements error_messages)).

(** *** The row written to the CSV file

    The numbers of [summary_row], before they are formatted. *)
Record SummaryRow := {
  actual_duration : Q;
  total_results_recorded : nat;
  success_count : nat;
  error_count : nat;
  success_rate : Q;
  total_chars : nat;
  avg_request_duration : Q;
  actual_rpm : Q;
  errors_sample : string;
}.

Inductive script := AsrTest | TranslationTest.

(** [run_test_even_rpm] from [# 计算测试结果] on: [None] when nothing was
    recorded, the row otherwise.  [text_api] tells whether
    [target_api_func] is one of the functions whose text is counted. *)
Definition summarize (which : script) (text_api : bool)
    (test_results : list RequestResult) (actual_duration : Q)
  : Calc (option SummaryRow) :=
  let total_results_recorded := length test_results in
  if (total_results_recorded =? 0)%nat then pure None
  else
    let success_count := length (successes test_results) in
    let error_count := (total_results_recorded - success_count)%nat in
    let total_latency := sum (map r_total_time (successes test_results)) in
    calc avg_latency :=
      (if (0 <? success_count)%nat
       then div total_latency (of_nat success_count) else pure 0) in
    calc success_rate :=
      (if (0 <? total_results_recorded)%nat
       then calc ratio := div (of_nat success_count) (of_nat total_results_recorded) in
            pure (ratio * 100)
       else pure 0) in
    calc per_second := div (of_nat success_count)
                           (Py.max actual_duration (1 # 1000)) in
    let actual_rpm := per_second * 60 in
    let total_chars :=
      if text_api then text_chars test_results
      else estimated_chars test_results in
    calc avg_request_duration :=
      (if (0 <? success_count)%nat
       then div (total_latency * 1000) (of_nat success_count) else pure 0) in
    let errors_sample :=
      match which with
      | AsrTest => asr_errors_sample test_results
      | TranslationTest => translation_errors_sample test_results
      end in
    pure (Some {| actual_duration := actual_duration;
                  total_results_recorded := total_results_recorded;
                  success_count := success_count;
                  error_count := error_count;
                  success_rate := success_rate;
                  total_chars := total_chars;
                  avg_request_duration := avg_request_duration;
                  actual_rpm := actual_rpm;
                  errors_sample := errors_sample |}).

(** The summary computed from scratch. *)
Definition run_summary (which : script) (text_api : bool)
    (test_results : list RequestResult) (actual_duration : Q)
  : result (option SummaryRow) * list (Q * Q) :=
  summarize which text_api test_results actual_duration [].

(** The arithmetic mean of the latencies of the successful results, 0
    when there is none. *)
Definition mean_success_latency (test_results : list RequestResult) : Q :=
  match successes test_results with
  | [] => 0
  | _ => sum (map r_total_time (successes test_results))
         / of_nat (length (successes test_results))
  end.

(** The weight of the messages that satisfy [p] in [error_stats]. *)
Definition weight (p : string → bool) (stats : gmap string nat) : nat :=
  map_fold (λ error_msg count acc, if p error_msg then (count + acc)%nat else acc)
           0%nat stats.

(** The failed results with a message of type [t]. *)
Definition tallied (test_results : list RequestResult) (t : error_type) : nat :=
  length (filter (λ r, error_type_of (r_error_msg r) = t)
                 (failures_with_message test_results)).

(** The achieved rate and the average latency of the row are given by
    the formulas of the summary, in which [duration_used] stands for the
    duration that divides the number of successes. *)
Definition summary_formulas (duration_used : Q → Q) : Prop :=
  ∀ which text_api test_results actual_duration,
    test_results ≠ [] →
    ∃ row log,
      run_summary which text_api test_results actual_duration
        = (Value (Some row), log) ∧
      success_count row = length (successes test_results) ∧
      actual_rpm row ==
        of_nat (length (successes test_results))
          / duration_used actual_duration * 60 ∧
      avg_request_duration row == mean_success_latency test_results * 1000.

(** The error summary that a script persists is the rendering of the
    five counts. *)
Definition persists_type_counts (which : script) : Prop :=
  ∀ text_api test_results actual_duration row log,
    failures_with_message test_results ≠ [] →
    run_summary which text_api test_results actual_duration
      = (Value (Some row), log) →
    errors_sample row =
      render_counts (error_type_counts (error_stats test_results)).

(** *** Sample results *)

Definition ok_result (latency : Q) : RequestResult :=
  {| r_success := true; r_total_time := latency;
     r_time_to_first_chunk := None; r_input_size := 679; r_output_size := 120;
     r_error_msg := ""; r_request_id := "TextTranslation-Request-0-0000";
     r_text := "你好" |}.

Definition failed_result (error_msg : string) : RequestResult :=
  {| r_success := false; r_total_time := 1 # 10;
     r_time_to_first_chunk := None; r_input_size := 679; r_output_size := 0;
     r_error_msg := error_msg; r_request_id := "TextTranslation-Request-1-0000";
     r_text := "" |}.

End Aggregator.

(** ** More of the key manager classes *)

Module KeyManagerMore.
Import KeyManager.

(** *** [get_key_abbreviation] *)

(** [s] without its first [k] code points; a continuation byte met on the
    way belongs to a code point already dropped. *)
Fixpoint drop_chars (k : nat) (s : string) : string :=
  match s with
  | EmptyString => EmptyString
  | String a s' =>
      if Py.is_continuation a then drop_chars k s'
      else match k with
           | O => s
           | S k' => drop_chars k' s'
           end
  end.

(** [s[-n:]] for a positive [n]: the last [n] code points, all of [s] when
    it is shorter. *)
Definition slice_last (n : nat) (s : string) : string :=
  drop_chars (Py.len s - n) s.

(** [get_key_abbreviation]: [key] itself when it is falsy or shorter than
    eight characters, else [f"{key[:4]}...{key[-4:]}"]. *)
Definition get_key_abbreviation (key : string) : string :=
  if negb (Py.truthy key) || (Py.len key <? 8)%nat then key
  else Py.slice_to 4 key +:+ "..." +:+ slice_last 4 key.

(** *** [__init__] *)

(** The class variables that [__init__] looks at, beside the cache:
    whether [_update_thread] is set, and [_stop_update]. *)
Record ClassVars := {
  cache : ClassState;
  _update_thread : bool;
  _stop_update : bool;
}.

(** The class body: no thread, [_stop_update = False]. *)
Definition class_body : ClassVars :=
  {| cache := initial; _update_thread := false; _stop_update := false |}.

(** [__init__], under the lock: the constructor starts the refresher
    thread if there is none.  The result tells the new class variables and
    the number of threads started. *)
Definition __init__ (cv : ClassVars) : ClassVars * nat :=
  if _update_thread cv then (cv, 0%nat)
  else ({| cache := cache cv; _update_thread := true; _stop_update := false |},
        1%nat).

(** The instances made one after the other, with the threads started in
    all. *)
Fixpoint construct (n : nat) (cv : ClassVars) : ClassVars * nat :=
  match n with
  | O => (cv, 0%nat)
  | S n' =>
      let '(cv1, started) := __init__ cv in
      let '(cv2, more) := construct n' cv1 in
      (cv2, (started + more)%nat)
  end.

(** *** [_update_key_periodically] *)

(** The [while not _stop_update] loop, for the turns whose HTTP exchange
    and clock reading are listed in [attempts]; [pause] is the argument of
    its [time.sleep], 5 in [az_asr_test.py], 0.5 in
    [az_translation_test.py]. *)
Definition _update_key_periodically (pause : Q)
    (attempts : list (keys_get_http * Q)) (σ : ClassState)
  : ClassState * list event :=
  foldl (λ '(σ, tr) '(http, current_time),
           (_update_key_periodically_turn http current_time σ,
            tr ++ [EvSleep pause]))
        (σ, []) attempts.

(** The payload and the time of the last attempt that stores a
    credential. *)
Definition last_stored (attempts : list (keys_get_http * Q))
  : option (Credential * Q) :=
  foldl (λ found '(http, current_time),
           match refresh_payload http with
           | Some d => Some (d, current_time)
           | None => found
           end)
        None attempts.

(** The events of a reader that keep or give up the lock. *)
Definition is_acquire (e : event) : bool :=
  match e with EvAcquire => true | _ => false end.

Definition is_release (e : event) : bool :=
  match e with EvRelease => true | _ => false end.

End KeyManagerMore.

(** ** More about the request functions *)

Module WorkerMore.
Import KeyManager Worker.

(** The local variables when the [finally] block is reached. *)
Definition final_locals (body : M unit) (handlers : exn → M unit) : Locals :=
  snd (match body locals0 with
       | (inl e, s1) => handlers e s1
       | (inr _, s1) => (inr tt, s1)
       end).

(** Whether a call in [env] gets as far as [requests.post]: the cache
    hands out a credential and, for the functions that send the audio
    file, the file is there and can be read. *)
Definition sends {B} (uses_audio : bool) (env : Env B) : bool :=
  match cached_credential env with
  | Some _ =>
      negb uses_audio
      || (audio_file_ok env
          && match audio_read env with ReadBytes _ => true | _ => false end)
  | None => false
  end.

(** Whether the Azure endpoint answers 2xx with a payload that [ok]
    accepts. *)
Definition answered {B} (ok : B → bool) (env : Env B) : bool :=
  match target env with
  | inr r =>
      is_2xx (status_code r)
      && match json r with inr b => ok b | inl _ => false end
  | inl _ => false
  end.

Definition expected {B} (shape_of : B → shape) (b : B) : bool :=
  match shape_of b with Expected => true | _ => false end.

(** The payloads on which [test_transcription_api] raises after it has
    set [success = True]. *)
Definition raises_late (b : transcription_body) : bool :=
  match b with TrIllTyped true _ _ => true | _ => false end.

Definition never_late {B} (b : B) : bool := false.

(** A status report names the credential [c] and does not carry the code
    200. *)
Definition post_ok (c : option Credential) (e : event) : Prop :=
  match e with
  | EvStatusPost k code _ => code ≠ 200%Z ∧ key <$> c = Some k
  | _ => True
  end.

(** A trace with [nt] requests to Azure and [ns] status reports, each of
    which satisfies [post_ok]. *)
Definition trace_ok (c : option Credential) (nt ns : nat) (tr : list event) : Prop :=
  count_events is_target_post tr = nt ∧
  count_events is_status_post tr = ns ∧
  Forall (post_ok c) tr.

(** No [FileNotFoundError] of the environment has an empty text. *)
Definition file_errors_have_text {B} (env : Env B) : Prop :=
  audio_read env ≠ ReadNoFile "" ∧
  target env ≠ inl (FileNotFoundError "") ∧
  ∀ r, target env = inr r → json r ≠ inl (FileNotFoundError "").

(** What holds of the local variables [s] at the end of a call in [env]. *)
Definition call_facts {B} (uses_audio : bool) (shape_of : B → shape)
    (late : B → bool) (max_posts : nat) (side : Env B → Prop)
    (env : Env B) (s : Locals) : Prop :=
  count_events is_target_post (trace s) =
    (if sends uses_audio env then 1 else 0)%nat ∧
  (count_events is_status_post (trace s) ≤ max_posts)%nat ∧
  Forall (post_ok (cached_credential env)) (trace s) ∧
  success s =
    sends uses_audio env
    && answered (λ b, expected shape_of b || late b) env ∧
  (success s = true → answered late env = false →
   error_msg s = "" ∧ count_events is_status_post (trace s) = 0%nat) ∧
  (success s = false → side env → error_msg s ≠ "").

(** A request function makes one request to Azure when it gets that far,
    and none otherwise. *)
Definition one_request_per_call {B}
    (f : Env B → string → list RequestResult → Outcome) (uses_audio : bool) : Prop :=
  ∀ env thread_id rl,
    count_events is_target_post (events (f env thread_id rl)) =
      (if sends uses_audio env then 1 else 0)%nat.

(** A request function posts at most [n] status reports. *)
Definition status_posts_bounded {B}
    (f : Env B → string → list RequestResult → Outcome) (n : nat) : Prop :=
  ∀ env thread_id rl,
    (count_events is_status_post (events (f env thread_id rl)) ≤ n)%nat.

(** Every status report of a request function names the credential the
    call was handed, and none carries the code 200. *)
Definition reports_name_credential {B}
    (f : Env B → string → list RequestResult → Outcome) : Prop :=
  ∀ env thread_id rl,
    Forall (post_ok (cached_credential env)) (events (f env thread_id rl)).

(** The record of a request function is marked successful exactly when
    the request was sent and answered 2xx with a payload that has the
    expected shape or, for [late], makes the function raise late. *)
Definition success_flag_is {B}
    (f : Env B → string → list RequestResult → Outcome) (uses_audio : bool)
    (shape_of : B → shape) (late : B → bool) : Prop :=
  ∀ env thread_id rl,
    ∃ r, result_list (f env thread_id rl) = rl ++ [r] ∧
         r_success r =
           sends uses_audio env
           && answered (λ b, expected shape_of b || late b) env.

(** A request that is sent and answered 2xx with the expected payload
    gives a successful record without an error message, and no status
    report. *)
Definition success_is_clean {B}
    (f : Env B → string → list RequestResult → Outcome) (uses_audio : bool)
    (shape_of : B → shape) : Prop :=
  ∀ env thread_id rl,
    sends uses_audio env && answered (expected shape_of) env = true →
    ∃ r, result_list (f env thread_id rl) = rl ++ [r] ∧
         r_success r = true ∧ r_error_msg r = "" ∧
         count_events is_status_post (events (f env thread_id rl)) = 0%nat.

(** A call whose record is not marked successful leaves an error message
    in it. *)
Definition failures_carry_message {B}
    (f : Env B → string → list RequestResult → Outcome) (uses_audio : bool)
    (shape_of : B → shape) (late : B → bool) (side : Env B → Prop) : Prop :=
  ∀ env thread_id rl,
    side env →
    sends uses_audio env
    && answered (λ b, expected shape_of b || late b) env = false →
    ∃ r, result_list (f env thread_id rl) = rl ++ [r] ∧
         r_success r = false ∧ r_error_msg r ≠ "".

(** *** [AtomicCounter] and [api_worker] *)

Module AtomicCounter.

(** [increment(num)]: the new state and the value returned. *)
Definition increment (num : Z) (_value : Z) : Z * Z :=
  ((_value + num)%Z, (_value + num)%Z).

Definition value (_value : Z) : Z := _value.

End AtomicCounter.

(** What the workers of [run_test_even_rpm] share. *)
Record Shared := {
  test_results : list RequestResult;
  request_counter : Z;
}.

(** A call of [api_worker]: the environment of the request function, the
    thread name, and the value of the [uuid.uuid4()] of the [except]
    clause. *)
Record WorkerCall (B : Type) := {
  w_env : Env B;
  w_thread_id : string;
  w_uuid4 : string;
}.
Arguments w_env {B}.
Arguments w_thread_id {B}.
Arguments w_uuid4 {B}.

(** The record that [api_worker] appends when [target_api_func] raises. *)
Definition worker_error_record {B} (w : WorkerCall B) (e : exn) : RequestResult :=
  {| r_success := false; r_total_time := 0;
     r_time_to_first_chunk := None; r_input_size := 0; r_output_size := 0;
     r_error_msg := "工作线程未捕获异常: " +:+ format_exc (frames (w_env w)) e;
     r_request_id :=
       "worker-" +:+ w_thread_id w +:+ "-error-" +:+ w_uuid4 w;
     r_text := "" |}.

(** [api_worker(thread_id)] for [target_api_func = f]. *)
Definition api_worker {B}
    (f : Env B → string → list RequestResult → Outcome)
    (w : WorkerCall B) (sh : Shared) : Shared :=
  let out := f (w_env w) (w_thread_id w) (test_results sh) in
  match exit out with
  | inr _ =>
      {| test_results := result_list out;
         request_counter :=
           fst (AtomicCounter.increment 1 (request_counter sh)) |}
  | inl e =>
      {| test_results := result_list out ++ [worker_error_record w e];
         request_counter := request_counter sh |}
  end.

(** The workers of a run, in the order in which they finish. *)
Definition run_workers {B}
    (f : Env B → string → list RequestResult → Outcome)
    (workers : list (WorkerCall B)) (sh : Shared) : Shared :=
  foldl (λ sh w, api_worker f w sh) sh workers.

(** The state that [run_test_even_rpm] starts from. *)
Definition no_results : Shared :=
  {| test_results := []; request_counter := 0 |}.

(** After the workers of a run with [f], the counter is the number of
    records, and the records are those of the workers, in the order in
    which they finished: the [k]-th carries the request id that [f] makes
    from the thread name of the [k]-th worker. *)
Definition counter_counts_records {B}
    (f : Env B → string → list RequestResult → Outcome) (prefix : string) : Prop :=
  ∀ workers,
    let sh := run_workers f workers no_results in
    request_counter sh = Z.of_nat (length (test_results sh)) ∧
    map r_request_id (test_results sh) =
      map (λ w, prefix +:+ w_thread_id w +:+ "-" +:+ uuid4 (w_env w)) workers.

(** An environment in which reading the audio file fails. *)
Definition env_unreadable {B} (t : exn + Response B) : Env B :=
  {| clock_start := 0; clock_end := 1; uuid4 := "0000"; frames := "";
     ASR_AUDIO_FILE := "asr_vad_punc_example.wav";
     audio_file_ok := true;
     audio_read := ReadError "PermissionError" "Permission denied";
     key_states := λ _, one_refresh;
     target := t;
     keys_status := λ _, StatusJson (ReplyObject true) |}.

End WorkerMore.

(** ** More about the dispatcher of [run_test_even_rpm] *)

Module DispatcherMore.
Import Dispatcher.

Local Open Scope Q_scope.

(** [request_interval = 60.0 / TARGET_RPM]: the division raises
    [ZeroDivisionError] when the rate is 0. *)
Definition request_interval (TARGET_RPM : Q) : option Q :=
  if Qeq_bool TARGET_RPM 0 then None else Some (60 / TARGET_RPM).

(** [test_duration_seconds = TEST_DURATION_MINUTES * 60]. *)
Definition test_duration_seconds (TEST_DURATION_MINUTES : Q) : Q :=
  TEST_DURATION_MINUTES * 60.

(** [total_requests_expected = int(TARGET_RPM * TEST_DURATION_MINUTES)]. *)
Definition total_requests_expected (TARGET_RPM TEST_DURATION_MINUTES : Q) : Z :=
  Py.int (TARGET_RPM * TEST_DURATION_MINUTES).

(** The dispatcher as [run_test_even_rpm] starts it: [start_run_time]
    is read first, the dispatcher reads the clock again ([t]) when its
    thread starts. *)
Definition even_rpm_dispatcher (TARGET_RPM TEST_DURATION_MINUTES : Q)
    (start_run_time t : Q) (readings : list (bool * Q)) : option State :=
  match request_interval TARGET_RPM with
  | Some interval =>
      Some (dispatcher start_run_time
              (test_duration_seconds TEST_DURATION_MINUTES) interval t readings)
  | None => None
  end.

(** The fire time is the start of the dispatcher plus [request_id]
    intervals. *)
Definition on_grid (request_interval t : Q) (st : State) : Prop :=
  next_time st == t + inject_Z (request_id st) * request_interval.

(** The indices of the workers started so far increase in the order
    of their start, and lie between 0 and [request_id]. *)
Definition ids_increase (st : State) : Prop :=
  (∀ i j a b, (i < j)%nat →
     spawned st !! i = Some a → spawned st !! j = Some b → (a < b)%Z) ∧
  Forall (λ i, (0 ≤ i < request_id st)%Z) (spawned st) ∧
  (0 ≤ request_id st)%Z.

(** No worker has been started, or the fire time is less than one
    interval past the end of the test. *)
Definition within_duration (start_run_time test_duration_seconds
    request_interval : Q) (st : State) : Prop :=
  request_id st = 0%Z ∨
  next_time st < start_run_time + test_duration_seconds + request_interval.

End DispatcherMore.

(** ** More about the summary *)

Module AggregatorMore.
Import Worker WorkerMore Aggregator.

Local Open Scope Q_scope.

(** The results with [r[0]] false. *)
Definition failures (test_results : list RequestResult) : list RequestResult :=
  filter (λ r, r_success r = false) test_results.

(** How many failed results carry the message [error_msg]. *)
Definition occurrences (error_msg : string) (test_results : list RequestResult)
  : nat :=
  length (filter (λ r, r_error_msg r = error_msg)
                 (failures_with_message test_results)).

(** [set(r[5] for r in test_results if not r[0] and r[5])]. *)
Definition distinct_messages (test_results : list RequestResult) : gset string :=
  list_to_set (map r_error_msg (failures_with_message test_results)).

(** The environments of the workers satisfy [side]. *)
Definition workers_satisfy {B} (side : Env B → Prop)
    (workers : list (WorkerCall B)) : Prop :=
  Forall (λ w, side (w_env w)) workers.

(** After a run with [f], the error count of the summary is the number
    of results that enter the error statistics, and it adds up with the
    success count to the number of workers. *)
Definition every_failure_is_summarised {B}
    (f : Env B → string → list RequestResult → Outcome)
    (side : Env B → Prop) : Prop :=
  ∀ which text_api workers actual_duration,
    workers ≠ [] → workers_satisfy side workers →
    ∃ row log,
      run_summary which text_api
        (test_results (run_workers f workers no_results)) actual_duration
        = (Value (Some row), log) ∧
      error_count row =
        length (failures_with_message
                  (test_results (run_workers f workers no_results))) ∧
      (success_count row + error_count row)%nat = length workers.

End AggregatorMore.

(** ** The plan of the legacy [run_test] *)

Module Legacy.

Local Open Scope Q_scope.

(** The test parameters of the module.  The two durations and the total
    are numbers or [None]. *)
Record Config := {
  TARGET_RPM : Q;
  TEST_DURATION_MINUTES : option Q;
  TEST_DURATION_SECONDS : option Q;
  TOTAL_REQUESTS : option Z;
  MAX_WORKERS : Z;
}.

(** Truthiness of a number or [None]. *)
Definition truthy_number (x : option Q) : bool :=
  match x with
  | Some q => negb (Qeq_bool q 0)
  | None => false
  end.

(** [TEST_DURATION_SECONDS or (TEST_DURATION_MINUTES * 60 if
    TEST_DURATION_MINUTES else 60)]. *)
Definition test_duration_seconds (c : Config) : Q :=
  if truthy_number (TEST_DURATION_SECONDS c)
  then default 0 (TEST_DURATION_SECONDS c)
  else if truthy_number (TEST_DURATION_MINUTES c)
       then default 0 (TEST_DURATION_MINUTES c) * 60
       else 60.

(** What [run_test] settles before it starts its workers. *)
Record Plan := {
  use_duration : bool;
  num_requests_to_start : Z;
  actual_workers : Z;
}.

(** [run_test] up to the start of the workers: [None] where the function
    returns [None].  [audio_missing] tells that the function under test
    reads the audio file and that the file is not there. *)
Definition run_test_plan (audio_missing : bool) (c : Config) : option Plan :=
  if audio_missing then None
  else
    let test_duration_seconds := test_duration_seconds c in
    let by_duration :=
      if negb (Qeq_bool test_duration_seconds 0)
         && Dispatcher.Qlt_bool 0 test_duration_seconds then
        let estimated_requests :=
          Qceiling (TARGET_RPM c / 60 * test_duration_seconds) in
        let num_requests_to_start :=
          Z.max estimated_requests (MAX_WORKERS c * 2) in
        Some {| use_duration := true;
                num_requests_to_start := num_requests_to_start;
                actual_workers := Z.min (MAX_WORKERS c) (MAX_WORKERS c) |}
      else None in
    match TOTAL_REQUESTS c with
    | Some total =>
        if negb (total =? 0)%Z && (0 <? total)%Z then
          Some {| use_duration := false;
                  num_requests_to_start := total;
                  actual_workers := Z.min (MAX_WORKERS c) total |}
        else by_duration
    | None => by_duration
    end.

(** The parameters as the module sets them. *)
Definition module_config : Config :=
  {| TARGET_RPM := 1000; TEST_DURATION_MINUTES := Some 1;
     TEST_DURATION_SECONDS := None; TOTAL_REQUESTS := None;
     MAX_WORKERS := 10 |}.

(** The plan for these parameters: a thousand tasks for ten workers. *)
Definition module_plan : Plan :=
  {| use_duration := true; num_requests_to_start := 1000;
     actual_workers := 10 |}.

(** A negative duration in seconds. *)
Definition negative_config : Config :=
  {| TARGET_RPM := 1000; TEST_DURATION_MINUTES := Some 1;
     TEST_DURATION_SECONDS := Some (-5); TOTAL_REQUESTS := None;
     MAX_WORKERS := 10 |}.

End Legacy.

(** * Properties *)

(** ** The credential cache *)

Module KeyManagerFacts.
Import KeyManager.

Lemma fresh_object_unused (σ : ClassState) :
  objects σ !! fresh (dom (objects σ)) = None.
Proof. apply not_elem_of_dom, is_fresh. Qed.

Lemma fresh_object_differs (σ : ClassState) (l : loc) (d : Credential) :
  objects σ !! l = Some d → fresh (dom (objects σ)) ≠ l.
Proof.
  intros Hl Heq. pose proof (fresh_object_unused σ) as Hf.
  rewrite Heq in Hf. congruence.
Qed.

(** A refresh attempt that stores nothing leaves the class state as it
    was. *)
Lemma failed_refresh_keeps_state http t σ :
  refresh_payload http = None → _update_key_periodically_turn http t σ = σ.
Proof.
  unfold refresh_payload, _update_key_periodically_turn, get_key.
  destruct http as [|[[] [d|]|]]; intros; done.
Qed.

(** A refresh attempt that stores a credential puts it into a new object
    and lets the slot refer to it. *)
Lemma successful_refresh_replaces http t σ d :
  refresh_payload http = Some d →
  let σ' := _update_key_periodically_turn http t σ in
  slot_value σ' = Some d ∧ _last_update_time σ' = t ∧
  (∀ l c, objects σ !! l = Some c → objects σ' !! l = Some c).
Proof.
  unfold refresh_payload, _update_key_periodically_turn, get_key.
  destruct http as [|[[] [d'|]|]]; intros [= ->]; simpl.
  repeat split.
  - unfold slot_value; simpl. by rewrite lookup_insert_eq.
  - intros l c Hl. rewrite lookup_insert_ne; [done|].
    by eapply fresh_object_differs.
Qed.

(** The critical section of [get_azure_key_with_retry] reads the slot: it
    changes neither the slot, nor the credential in it, nor the time of
    the last refresh. *)
Lemma lookup_reads_only σ :
  current_key (lookup_under_lock σ) = current_key σ ∧
  slot_value (lookup_under_lock σ) = slot_value σ ∧
  _last_update_time (lookup_under_lock σ) = _last_update_time σ.
Proof.
  unfold lookup_under_lock, get_azure_key_with_retry, slot_value; simpl.
  destruct (current_key σ) as [l|] eqn:Hk; simpl; [|by rewrite Hk].
  destruct (objects σ !! l) as [d|] eqn:Hl; simpl; rewrite ?Hk; simpl;
    [|done].
  repeat split. rewrite lookup_insert_ne; [done|].
  by eapply fresh_object_differs.
Qed.

Lemma step_keeps_slot_filled σ o :
  is_Some (current_key σ) → is_Some (current_key (step σ o)).
Proof.
  intros Hs. destruct o as [http t|]; simpl.
  - destruct (refresh_payload http) as [d|] eqn:Hp.
    + unfold refresh_payload in Hp. unfold _update_key_periodically_turn, get_key.
      destruct http as [|[[] [d'|]|]]; try discriminate. simpl. by eexists.
    + by rewrite failed_refresh_keeps_state.
  - by rewrite (proj1 (lookup_reads_only σ)).
Qed.

Lemma run_keeps_slot_filled ops σ :
  is_Some (current_key σ) → is_Some (current_key (run ops σ)).
Proof.
  revert σ. induction ops as [|o ops IH]; intros σ Hs; [done|].
  simpl. apply IH, step_keeps_slot_filled, Hs.
Qed.

(** The slot is filled by a successful refresh and by nothing else. *)
Lemma slot_filled_by_refresh σ o :
  current_key σ = None → is_Some (current_key (step σ o)) →
  ∃ http t d, o = OpRefresh http t ∧ refresh_payload http = Some d.
Proof.
  intros Hn Hs. destruct o as [http t|]; simpl in Hs.
  - destruct (refresh_payload http) as [d|] eqn:Hp; [by eauto|].
    rewrite failed_refresh_keeps_state in Hs by done.
    rewrite Hn in Hs. by destruct Hs.
  - rewrite (proj1 (lookup_reads_only σ)), Hn in Hs. by destruct Hs.
Qed.



End KeyManagerFacts.

(** ** Reading the cache with retries *)

Module KeyLookupFacts.
Import KeyManager KeyManagerFacts.

Lemma retry_loop_exhausted obs max_retries remaining :
  (∀ j, (max_retries - remaining ≤ j < max_retries)%nat →
        current_key (obs j) = None) →
  (remaining ≤ max_retries)%nat →
  retry_loop obs max_retries remaining =
    (empty_turns max_retries (max_retries - remaining) remaining, None).
Proof.
  induction remaining as [|rest IH]; intros Hempty Hle; [done|].
  cbn [retry_loop]. rewrite Hempty by lia.
  rewrite IH; [|intros; apply Hempty; lia|lia].
  unfold empty_turns. cbn [seq map concat].
  replace (S (max_retries - S rest)) with (max_retries - rest)%nat by lia.
  unfold empty_turn. simpl. by rewrite <- ?app_assoc.
Qed.

Lemma retry_loop_found obs max_retries remaining i l d :
  (remaining ≤ max_retries)%nat →
  (max_retries - remaining ≤ i < max_retries)%nat →
  (∀ j, (max_retries - remaining ≤ j < i)%nat → current_key (obs j) = None) →
  current_key (obs i) = Some l →
  objects (obs i) !! l = Some d →
  retry_loop obs max_retries remaining =
    (empty_turns max_retries (max_retries - remaining)
                 (i - (max_retries - remaining)) ++ [EvAcquire; EvReadSlot; EvRelease],
     Some (with_copy (obs i) d, fresh (dom (objects (obs i))))).
Proof.
  induction remaining as [|rest IH]; intros Hle Hi Hempty Hk Hl; [lia|].
  cbn [retry_loop].
  destruct (decide (i = max_retries - S rest)%nat) as [->|Hne].
  - unfold with_copy. rewrite Hk, Hl, Nat.sub_diag. reflexivity.
  - rewrite Hempty by lia.
    rewrite IH; [|lia|lia|intros; apply Hempty; lia|done|done].
    unfold empty_turns.
    replace (i - (max_retries - S rest))%nat
      with (S (i - (max_retries - rest)))%nat by lia.
    cbn [seq map concat].
    replace (S (max_retries - S rest)) with (max_retries - rest)%nat by lia.
    unfold empty_turn. simpl. by rewrite <- ?app_assoc.
Qed.

Lemma retry_sleep_count attempt max_retries :
  count_events is_sleep (empty_turn max_retries attempt) =
    if (attempt <? max_retries - 1)%nat then 1%nat else 0%nat.
Proof.
  unfold empty_turn, retry_sleep.
  by destruct (attempt <? max_retries - 1)%nat.
Qed.

Lemma count_events_app p tr1 tr2 :
  count_events p (tr1 ++ tr2) = (count_events p tr1 + count_events p tr2)%nat.
Proof. unfold count_events. by rewrite filter_app, length_app. Qed.

Lemma count_events_cons p e tr :
  count_events p (e :: tr) =
    ((if p e then 1 else 0) + count_events p tr)%nat.
Proof.
  unfold count_events. rewrite filter_cons.
  destruct (p e); by case_decide.
Qed.

Lemma empty_turns_sleep_count max_retries from n :
  (from + n ≤ max_retries)%nat →
  count_events is_sleep (empty_turns max_retries from n) =
    (n - (from + n - (max_retries - 1)))%nat.
Proof.
  revert from. induction n as [|n IH]; intros from Hle; [done|].
  unfold empty_turns in *. cbn [seq map concat].
  rewrite count_events_app, retry_sleep_count, IH by lia.
  destruct (Nat.ltb_spec from (max_retries - 1)); lia.
Qed.



End KeyLookupFacts.

(** ** The request functions *)

Module WorkerFacts.
Import KeyManager KeyLookupFacts Worker.

Lemma returns_ret {A} (a : A) : returns (ret a).
Proof. intros s. by eexists _, _. Qed.

Lemma returns_gets {A} (f : Locals → A) : returns (gets f).
Proof. intros s. by eexists _, _. Qed.

Lemma returns_modify f : returns (modify f).
Proof. intros s. by eexists _, _. Qed.

Lemma returns_bind {A B} (m : M A) (k : A → M B) :
  returns m → (∀ a, returns (k a)) → returns (bind m k).
Proof.
  intros Hm Hk s. destruct (Hm s) as (a & s' & Hms).
  unfold bind. rewrite Hms. apply Hk.
Qed.

Ltac returns_step :=
  lazymatch goal with
  | |- returns (mbind _ _) => unfold mbind, M_bind; apply returns_bind; [|intros ?]
  | |- returns (bind _ _) => apply returns_bind; [|intros ?]
  | |- returns (ret _) => apply returns_ret
  | |- returns (gets _) => apply returns_gets
  | |- returns (modify _) => apply returns_modify
  | |- returns (emit _) => apply returns_modify
  | |- returns (set_error_msg _) => apply returns_modify
  | |- returns (match ?x with _ => _ end) => destruct x
  | |- returns (if ?x then _ else _) => destruct x
  end.

(** [report_key_status_safe] returns a reply, whatever the service does. *)
Lemma report_key_status_safe_returns {B} (env : Env B) key code note :
  returns (report_key_status_safe env key code note).
Proof. unfold report_key_status_safe. repeat returns_step. Qed.

(** No [except] clause raises. *)
Lemma except_clauses_return {B} (env : Env B) with_fnf request_id e :
  returns (except_clauses env with_fnf request_id e).
Proof.
  unfold except_clauses.
  destruct e; repeat first [returns_step | apply report_key_status_safe_returns].
Qed.

(** A [try] block guarded by these clauses always ends by appending one
    record, and returns. *)
Lemma try_except_finally_appends_one {B} (env : Env B) with_fnf request_id
    (body : M unit) (result_list : list RequestResult) :
  ∃ r, Worker.result_list (try_except_finally env request_id body
              (except_clauses env with_fnf request_id) result_list)
         = result_list ++ [r] ∧
       r_request_id r = request_id ∧
       exit (try_except_finally env request_id body
              (except_clauses env with_fnf request_id) result_list) = inr tt.
Proof.
  unfold try_except_finally.
  destruct (body locals0) as [[e|[]] s1].
  - destruct (except_clauses_return env with_fnf request_id e s1)
      as ([] & s' & ->).
    by eexists.
  - by eexists.
Qed.

Ltac by_finally :=
  lazymatch goal with
  | |- context [try_except_finally ?env ?rid ?body
                  (except_clauses ?env ?b ?rid) ?rl] =>
      destruct (try_except_finally_appends_one env b rid body rl)
        as (r & ? & _ & ?); by exists r
  end.



(** *** Substrings *)

Lemma prefix_app (s t : string) : String.prefix s (s +:+ t) = true.
Proof.
  induction s as [|a s IH]; [by destruct t|].
  simpl. by destruct (ascii_dec a a).
Qed.

Lemma contains_unfold (sub s : string) :
  Py.contains sub s =
    if String.prefix sub s then true
    else match s with
         | EmptyString => false
         | String _ s' => Py.contains sub s'
         end.
Proof. by destruct s. Qed.

Lemma contains_here (sub t : string) : Py.contains sub (sub +:+ t) = true.
Proof. by rewrite contains_unfold, prefix_app. Qed.

Lemma contains_later (sub p t : string) :
  Py.contains sub t = true → Py.contains sub (p +:+ t) = true.
Proof.
  intros Ht. induction p as [|a p IH]; [done|].
  rewrite contains_unfold. destruct (String.prefix sub _); [done|].
  exact IH.
Qed.

Lemma append_assoc (s t u : string) : (s +:+ t) +:+ u = s +:+ (t +:+ u).
Proof.
  induction s as [|a s IH]; [done|].
  change (String a ((s +:+ t) +:+ u) = String a (s +:+ (t +:+ u))).
  by rewrite IH.
Qed.

Lemma format_exc_contains frames cls msg (tail : string) :
  Py.contains msg
    ("意外错误: " +:+ format_exc frames (OtherException cls msg) +:+ tail) = true.
Proof.
  unfold format_exc. cbn [str class_name].
  apply contains_later. rewrite !append_assoc.
  do 4 apply contains_later. apply contains_here.
Qed.

(** *** Calls that find no credential *)

Lemma retry_loop_posts_nothing obs max_retries remaining :
  count_events is_target_post (fst (retry_loop obs max_retries remaining)) = 0 ∧
  count_events is_status_post (fst (retry_loop obs max_retries remaining)) = 0.
Proof.
  induction remaining as [|rest IH]; [done|].
  cbn [retry_loop].
  destruct (retry_loop obs max_retries rest) as [tr r]. simpl in IH.
  destruct IH as [IHt IHs].
  destruct (current_key _) as [l|]; [destruct (objects _ !! l)|];
    [done| |]; simpl fst; unfold retry_sleep;
    destruct (_ <? _)%nat;
    rewrite ?count_events_app, ?count_events_cons, ?IHt, ?IHs; done.
Qed.

Lemma text_translation_without_key env thread_id rl :
  snd (get_azure_key_with_retry (key_states env) 3) = None →
  test_text_translation_api env thread_id rl =
    {| exit := inr tt;
       result_list := rl ++
         [unavailable_record env
            ("TextTranslation-" +:+ thread_id +:+ "-" +:+ uuid4 env)
            "无法获取可用的Azure翻译密钥"];
       events := fst (get_azure_key_with_retry (key_states env) 3) |}.
Proof.
  intros Hnone.
  unfold test_text_translation_api, try_except_finally,
    test_text_translation_api_try, acquire_key.
  destruct (get_azure_key_with_retry _ _) as [evs r].
  simpl in Hnone. subst r. reflexivity.
Qed.

Lemma speech_translation_without_key env thread_id rl :
  snd (get_azure_key_with_retry (key_states env) 3) = None →
  test_speech_translation_api env thread_id rl =
    {| exit := inr tt;
       result_list := rl ++
         [unavailable_record env
            ("SpeechTranslation-" +:+ thread_id +:+ "-" +:+ uuid4 env)
            "无法获取可用的Azure翻译密钥"];
       events := fst (get_azure_key_with_retry (key_states env) 3) |}.
Proof.
  intros Hnone.
  unfold test_speech_translation_api, try_except_finally,
    test_speech_translation_api_try, acquire_key.
  destruct (get_azure_key_with_retry _ _) as [evs r].
  simpl in Hnone. subst r. reflexivity.
Qed.

Lemma asr_without_key env thread_id rl :
  snd (get_azure_key_with_retry (key_states env) 3) = None →
  audio_file_ok env = true →
  test_asr_short_audio_api env thread_id rl =
    {| exit := inr tt;
       result_list := rl ++
         [unavailable_record env
            ("ASR-" +:+ thread_id +:+ "-" +:+ uuid4 env)
            "无法获取可用的Azure密钥"];
       events := fst (get_azure_key_with_retry (key_states env) 3) |}.
Proof.
  intros Hnone Hfile.
  unfold test_asr_short_audio_api, try_except_finally,
    test_asr_short_audio_api_try, acquire_key.
  rewrite Hfile.
  destruct (get_azure_key_with_retry _ _) as [evs r].
  simpl in Hnone. subst r. reflexivity.
Qed.

Lemma transcription_without_key env thread_id rl :
  snd (get_azure_key_with_retry (key_states env) 3) = None →
  audio_file_ok env = true →
  test_transcription_api env thread_id rl =
    {| exit := inr tt;
       result_list := rl ++
         [unavailable_record env
            ("Transcription-" +:+ thread_id +:+ "-" +:+ uuid4 env)
            "无法获取可用的Azure密钥"];
       events := fst (get_azure_key_with_retry (key_states env) 3) |}.
Proof.
  intros Hnone Hfile.
  unfold test_transcription_api, try_except_finally,
    test_transcription_api_try, acquire_key.
  rewrite Hfile.
  destruct (get_azure_key_with_retry _ _) as [evs r].
  simpl in Hnone. subst r. reflexivity.
Qed.

Ltac without_network Hrun :=
  rewrite Hrun; eexists; split; [reflexivity|];
  split; [reflexivity|];
  split; [apply format_exc_contains|];
  split; [reflexivity|];
  apply retry_loop_posts_nothing.

(** C5.  When [get_azure_key_with_retry] has used up its attempts on an
    empty slot and returns [None], a request function appends one failed
    record, whose message carries the text of the exception raised for the
    missing credential, and returns; it has posted nothing, neither to the
    Azure endpoint nor to the status endpoint of the key manager. *)
Theorem no_credential_no_network :
  fails_without_network test_asr_short_audio_api true "无法获取可用的Azure密钥" ∧
  fails_without_network test_transcription_api true "无法获取可用的Azure密钥" ∧
  fails_without_network test_text_translation_api false "无法获取可用的Azure翻译密钥" ∧
  fails_without_network test_speech_translation_api false "无法获取可用的Azure翻译密钥".
Proof.
  repeat split; intros env thread_id rl Hnone Hfile.
  - without_network (asr_without_key env thread_id rl Hnone (Hfile eq_refl)).
  - without_network (transcription_without_key env thread_id rl Hnone (Hfile eq_refl)).
  - without_network (text_translation_without_key env thread_id rl Hnone).
  - without_network (speech_translation_without_key env thread_id rl Hnone).
Qed.

Lemma no_credential_no_network_witness :
  ∃ r, result_list (test_asr_short_audio_api
                      (env_no_key (response_of 200 (inr AsrNotObject)))
                      "Request-0" []) = [] ++ [r] ∧
       r_success r = false ∧
       Py.contains "无法获取可用的Azure密钥" (r_error_msg r) = true ∧
       exit (test_asr_short_audio_api
               (env_no_key (response_of 200 (inr AsrNotObject)))
               "Request-0" []) = inr tt ∧
       count_events is_target_post
         (events (test_asr_short_audio_api
                    (env_no_key (response_of 200 (inr AsrNotObject)))
                    "Request-0" [])) = 0 ∧
       count_events is_status_post
         (events (test_asr_short_audio_api
                    (env_no_key (response_of 200 (inr AsrNotObject)))
                    "Request-0" [])) = 0.
Proof.
  apply (proj1 no_credential_no_network
           (env_no_key (response_of 200 (inr AsrNotObject))) "Request-0" []).
  - reflexivity.
  - reflexivity.
Defined.

(** *** The status codes reported by the [except] clauses *)

(** Running a statement: unfold the monad and the assignments, then read
    the fields of the resulting state. *)
Ltac run_m :=
  unfold mbind, M_bind, bind, ret, raise, gets, modify, lift, emit, read_audio,
    set_success, set_error_msg, set_input_size, set_output_size,
    set_response, set_out_text, set_azure_key_info;
  cbn -[String.append pretty Py.slice_to count_events].

Lemma except_clauses_report_codes {B} (env : Env B) with_fnf request_id s :
  except_clauses_report env with_fnf request_id s.
Proof.
  unfold except_clauses_report, after_except, except_clauses,
    report_key_status_safe.
  destruct (azure_key_info s) as [c|] eqn:Hkey.
  - repeat split; intros; run_m; rewrite ?Hkey; run_m.
    + by destruct (report_status _) as [| |[]].
    + by destruct (report_status _) as [| |[]].
    + destruct (response s) as [code|]; run_m; [|done].
      rewrite ?Hkey.
      destruct (code =? 200)%Z; run_m; [done|].
      by destruct (report_status _) as [| |[]].
  - intros [msg|msg|msg|cls msg]; run_m; rewrite ?Hkey; try done.
    + by destruct (response s); run_m; rewrite ?Hkey.
    + destruct with_fnf; run_m; by rewrite ?Hkey.
Qed.

(** Case analysis on what the environment of a call does. *)
Ltac case_env :=
  match goal with
  | |- (_, _) = (_, _) → _ =>
      let H := fresh in intros H; inversion H; subst; clear H
  | |- context [report_status ?x] =>
      destruct (report_status x) as [[]| |[]] eqn:?
  | |- context [(?a =? ?b)%Z] => destruct (a =? b)%Z eqn:?
  | |- context [(?a <=? ?b)%Z] => destruct (a <=? b)%Z eqn:?
  | |- context [(?a <? ?b)%Z] => destruct (a <? b)%Z eqn:?
  | |- context [String.eqb ?a ?b] => destruct (String.eqb a b) eqn:?
  | |- context [Py.truthy ?a] => destruct (Py.truthy a) eqn:?
  | |- context [match ?x with _ => _ end] => is_var x; destruct x
  | |- context [if ?x then _ else _] => is_var x; destruct x
  end.

Ltac run_cases :=
  unfold rate_limited, key_invalid, other_status, report_key_status_safe,
    status_in, is_2xx, reply_truthy, reply_get_success;
  run_m; repeat (case_env; run_m).

(** Start of a proof about a [try] block: name what the cache hands out
    and split the environment into its components. *)
Ltac enter_try :=
  unfold acquire_key;
  lazymatch goal with
  | |- context [get_azure_key_with_retry (key_states ?env) 3] =>
      destruct (get_azure_key_with_retry (key_states env) 3)
        as [evs [[σ l]|]];
      [destruct (objects σ !! l) as [c|]|];
      destruct env as [t0 t1 uid fr file file_ok read states
                        [ex|[code txt len [ex|b]]] replies]
  end.

Lemma transcription_transport_failures :
  transport_failures_hold_key test_transcription_api_try.
Proof.
  intros env request_id e s. unfold test_transcription_api_try.
  enter_try; run_cases; done.

Qed.

Lemma asr_transport_failures :
  transport_failures_hold_key test_asr_short_audio_api_try.
Proof.
  intros env request_id e s. unfold test_asr_short_audio_api_try.
  enter_try; run_cases; done.
Qed.

Lemma text_translation_transport_failures :
  transport_failures_hold_key test_text_translation_api_try.
Proof.
  intros env request_id e s. unfold test_text_translation_api_try.
  enter_try; run_cases; done.
Qed.

Lemma speech_translation_transport_failures :
  transport_failures_hold_key test_speech_translation_api_try.
Proof.
  intros env request_id e s. unfold test_speech_translation_api_try.
  enter_try; run_cases; done.
Qed.

(** C10.  The status codes of the reports made for failures that are not
    HTTP statuses come from the [except] clauses themselves.  Entered
    with a credential in hand, the clause for a timeout reports 408 and
    the clause for an unexpected exception reports 500, whatever the
    response was; the clause for another transport exception reports
    nothing when no response object exists and otherwise passes the
    status code of the response to [report_key_status_safe].  Entered
    without a credential, no clause reports anything.  In the four
    request functions a transport exception (timeout or not) always finds
    a credential in hand, and the response object exists exactly when the
    Azure endpoint answered. *)
Theorem except_clauses_synthesize_codes :
  (∀ B (env : Env B) with_fnf request_id s,
      except_clauses_report env with_fnf request_id s) ∧
  transport_failures_hold_key test_asr_short_audio_api_try ∧
  transport_failures_hold_key test_transcription_api_try ∧
  transport_failures_hold_key test_text_translation_api_try ∧
  transport_failures_hold_key test_speech_translation_api_try.
Proof.
  split; [intros; apply except_clauses_report_codes|].
  split; [apply asr_transport_failures|].
  split; [apply transcription_transport_failures|].
  split; [apply text_translation_transport_failures|].
  apply speech_translation_transport_failures.
Qed.

Lemma except_clauses_synthesize_codes_witness :
  is_Some (azure_key_info
    (snd (test_asr_short_audio_api_try
            (env_with_key (inl (Timeout "read timed out")))
            "ASR-Request-0-0000" locals0))) ∧
  response
    (snd (test_asr_short_audio_api_try
            (env_with_key (inl (Timeout "read timed out")))
            "ASR-Request-0-0000" locals0)) = None.
Proof.
  apply (proj1 (proj2 except_clauses_synthesize_codes)
           (env_with_key (inl (Timeout "read timed out")))
           "ASR-Request-0-0000" (Timeout "read timed out")).
  vm_compute. reflexivity.
Defined.

(** *** The number of status reports per kind of attempt *)

Lemma acquire_posts_nothing {B} (env : Env B) evs r :
  get_azure_key_with_retry (key_states env) 3 = (evs, r) →
  count_events is_status_post evs = 0.
Proof.
  intros Hget.
  pose proof (retry_loop_posts_nothing (key_states env) 3 3) as [_ Hs].
  unfold get_azure_key_with_retry in Hget. by rewrite Hget in Hs.
Qed.

(** Start of a proof about a call with a credential in hand. *)
Ltac enter_sent Hsent :=
  destruct Hsent as [Hcred Haudio];
  unfold cached_credential in Hcred;
  unfold try_except_finally, acquire_key, except_clauses;
  lazymatch goal with
  | |- context [get_azure_key_with_retry (key_states ?env) 3] =>
      destruct (get_azure_key_with_retry (key_states env) 3)
        as [evs [[σ l]|]] eqn:Hget; simpl in Hcred; [|discriminate];
      rewrite Hcred;
      apply acquire_posts_nothing in Hget;
      destruct env as [t0 t1 uid fr file file_ok read states
                        [ex|[code txt len [ex|b]]] replies]
  end.

Ltac z_facts :=
  repeat match goal with
    | H : (_ =? _)%Z = true |- _ => apply Z.eqb_eq in H
    | H : (_ =? _)%Z = false |- _ => apply Z.eqb_neq in H
    | H : (_ <=? _)%Z = true |- _ => apply Z.leb_le in H
    | H : (_ <=? _)%Z = false |- _ => apply Z.leb_gt in H
    | H : (_ <? _)%Z = true |- _ => apply Z.ltb_lt in H
    | H : (_ <? _)%Z = false |- _ => apply Z.ltb_ge in H
    end.

Ltac count_posts Hget :=
  rewrite ?count_events_app, ?count_events_cons, ?Hget; cbn;
  first [reflexivity | z_facts; lia].

Lemma transcription_reports_by_kind :
  reports_by_kind test_transcription_api transcription_shape true
    status_posts_made (λ _, True).
Proof.
  intros env thread_id rl c Hsent _.
  unfold test_transcription_api, test_transcription_api_try.
  destruct (proj2 Hsent eq_refl) as (Hfile & n & Hread).
  rewrite Hfile, Hread.
  unfold classify, status_posts_made, classify_exn, transcription_shape.
  enter_sent Hsent; run_cases; count_posts Hget.
Qed.

Lemma text_translation_reports_by_kind :
  reports_by_kind test_text_translation_api translation_shape false
    status_posts_made (λ _, True).
Proof.
  intros env thread_id rl c Hsent _.
  unfold test_text_translation_api, test_text_translation_api_try.
  unfold classify, status_posts_made, classify_exn, translation_shape.
  enter_sent Hsent; run_cases; count_posts Hget.
Qed.

Lemma speech_translation_reports_by_kind :
  reports_by_kind test_speech_translation_api speech_shape false
    status_posts_made (λ _, True).
Proof.
  intros env thread_id rl c Hsent _.
  unfold test_speech_translation_api, test_speech_translation_api_try.
  unfold classify, status_posts_made, classify_exn, speech_shape.
  enter_sent Hsent; run_cases; count_posts Hget.
Qed.

(** What the condition on the replies excludes. *)
Ltac no_scalar_reply Hobj :=
  match goal with
  | H : report_status (?r ?n) = ReplyScalar _ |- _ =>
      specialize (Hobj n); cbn in Hobj;
      destruct (r n) as [|[| |]]; cbn in H; first [discriminate | done]
  end.

Lemma asr_reports_by_kind :
  reports_by_kind test_asr_short_audio_api asr_shape true
    status_posts_made status_replies_are_objects.
Proof.
  intros env thread_id rl c Hsent Hobj.
  unfold test_asr_short_audio_api, test_asr_short_audio_api_try.
  destruct (proj2 Hsent eq_refl) as (Hfile & n & Hread).
  rewrite Hfile, Hread.
  unfold classify, status_posts_made, classify_exn, asr_shape.
  unfold status_replies_are_objects in Hobj.
  enter_sent Hsent; run_cases;
    first [count_posts Hget | no_scalar_reply Hobj].
Qed.

(** Why the replies matter for [test_asr_short_audio_api]: its 429 branch
    calls [result_.get] without testing [result_] first, as the three other
    functions do.  On a [null] reply the call raises, and the clause for
    unexpected exceptions posts a second report. *)
Lemma unguarded_get_posts_twice :
  filter (λ e, is_status_post e = true)
    (events (test_asr_short_audio_api env_rate_limited_null_reply "Request-0" [])) =
    [EvStatusPost "k1" 429 "Rate limit exceeded";
     EvStatusPost "k1" 500 "Unexpected error: object has no attribute 'get'"] ∧
  filter (λ e, is_status_post e = true)
    (events (test_transcription_api env_rate_limited_null_reply "Request-0" [])) =
    [EvStatusPost "k1" 429 "Rate limit exceeded"].
Proof. split; vm_compute; reflexivity. Qed.




End WorkerFacts.

(** ** The dispatcher *)

Module DispatcherFacts.
Import Dispatcher.

Lemma Qlt_bool_iff (a b : Q) : Qlt_bool a b = true ↔ (a < b)%Q.
Proof.
  unfold Qlt_bool. rewrite negb_true_iff.
  destruct (Qle_bool b a) eqn:Hle.
  - apply Qle_bool_iff in Hle. split; [done|].
    intros Hlt. exfalso. by apply (Qlt_not_le a b).
  - split; [|done]. intros _. apply Qnot_le_lt. intros Hle'.
    apply Qle_bool_iff in Hle'. congruence.
Qed.

(** On a float that is not negative, [int] is the floor. *)
Lemma int_is_floor (x : Q) : (0 <= x)%Q → Py.int x = Qfloor x.
Proof.
  destruct x as [n d]. unfold Qle, Py.int, Qfloor. simpl. intros Hn.
  apply Z.quot_div_nonneg; lia.
Qed.

Lemma delay_in_intervals_nonneg (request_interval delay : Q) :
  (0 < request_interval)%Q → (0 < delay)%Q → (0 <= delay / request_interval)%Q.
Proof.
  intros Hi Hd. apply Qlt_le_weak. apply Qlt_shift_div_l; [done|].
  by rewrite Qmult_0_l.
Qed.

(** A turn that fires and is still late afterwards. *)
Lemma fire_when_late request_interval current_time st :
  (0 < request_interval)%Q →
  (next_time st + request_interval < current_time)%Q →
  let skips := missed_slots request_interval current_time st in
  (next_time (turn request_interval current_time st) ==
     next_time st + request_interval + inject_Z skips * request_interval)%Q ∧
  request_id (turn request_interval current_time st) =
    (request_id st + 1 + skips)%Z ∧
  spawned (turn request_interval current_time st) =
    spawned st ++ [request_id st] ∧
  (0 <= skips)%Z.
Proof.
  intros Hi Hlate skips.
  assert (Hdelay : (0 < current_time - (next_time st + request_interval))%Q).
  { by apply (proj1 (Qlt_minus_iff _ _)). }
  assert (Hfire : Qle_bool (next_time st) current_time = true).
  { apply Qle_bool_iff, Qlt_le_weak.
    apply Qle_lt_trans with (next_time st + request_interval)%Q; [|done].
    rewrite <- (Qplus_0_r (next_time st)) at 1.
    apply Qplus_le_r. by apply Qlt_le_weak. }
  assert (Hint : Py.int ((current_time - (next_time st + request_interval))
                         / request_interval) = skips).
  { apply int_is_floor. by apply delay_in_intervals_nonneg. }
  assert (Hnonneg : (0 <= skips)%Z).
  { unfold skips, missed_slots.
    change 0%Z with (Qfloor 0). apply Qfloor_resp_le.
    by apply delay_in_intervals_nonneg. }
  unfold turn. rewrite Hfire. unfold fire.
  rewrite (proj2 (Qlt_bool_iff _ _) Hlate), Hint.
  destruct (0 <? skips)%Z eqn:Hpos; simpl.
  - split; [reflexivity|]. split; [lia|]. by split.
  - apply Z.ltb_ge in Hpos. assert (Hzero : skips = 0%Z) by lia.
    rewrite Hzero. split; [ring|]. split; [lia|]. by split.
Qed.

(** The request index never decreases, and a worker is started only for
    the index current at its start. *)
Lemma turn_spawns_current request_interval current_time st i :
  (0 < request_interval)%Q →
  i ∈ spawned (turn request_interval current_time st) →
  i ∈ spawned st ∨ i = request_id st.
Proof.
  intros Hi. unfold turn, fire.
  destruct (Qle_bool _ _); [|by left].
  destruct (Qlt_bool _ _); [destruct (0 <? _)%Z|]; simpl;
    rewrite elem_of_app, list_elem_of_singleton; tauto.
Qed.

Lemma turn_request_id_grows request_interval current_time st :
  (request_id st ≤ request_id (turn request_interval current_time st))%Z.
Proof.
  unfold turn, fire.
  destruct (Qle_bool _ _); [|lia].
  destruct (Qlt_bool _ _); [destruct (0 <? _)%Z eqn:Hpos|]; simpl; lia.
Qed.

Lemma loop_spawns_later start_run_time test_duration_seconds request_interval
    readings st i :
  (0 < request_interval)%Q →
  i ∈ spawned (dispatcher_loop start_run_time test_duration_seconds
                 request_interval readings st) →
  i ∈ spawned st ∨ (request_id st ≤ i)%Z.
Proof.
  intros Hi. revert st.
  induction readings as [|[stop current_time] rest IH]; intros st; simpl;
    [by left|].
  destruct stop; [by left|].
  destruct (Qle_bool _ _); [by left|].
  intros Hin. destruct (IH _ Hin) as [Hturn|Hlater].
  - destruct (turn_spawns_current _ _ _ _ Hi Hturn) as [?| ->];
      [by left|right; lia].
  - right. pose proof (turn_request_id_grows request_interval current_time st).
    lia.
Qed.



End DispatcherFacts.

(** ** The summary *)

Module AggregatorFacts.
Import Worker Aggregator.

(** *** No division by zero *)

Lemma of_nat_positive (n : nat) : (0 <? n)%nat = true → Qeq_bool (of_nat n) 0 = false.
Proof.
  intros Hn. apply Nat.ltb_lt in Hn.
  destruct (Qeq_bool (of_nat n) 0) eqn:Heq; [|done].
  apply Qeq_bool_iff in Heq. unfold of_nat, Qeq in Heq. simpl in Heq. lia.
Qed.

Lemma max_positive (a : Q) : Qeq_bool (Py.max a (1 # 1000)) 0 = false.
Proof.
  destruct (Qeq_bool _ 0) eqn:Heq; [|done].
  apply Qeq_bool_iff in Heq. unfold Py.max in Heq.
  destruct (Qle_bool (1 # 1000) a) eqn:Hle.
  - apply Qle_bool_iff in Hle. rewrite Heq in Hle. by compute in Hle.
  - by compute in Heq.
Qed.

Lemma div_defined (a b : Q) log :
  Qeq_bool b 0 = false → div a b log = (Value (a / b)%Q, log ++ [(a, b)]).
Proof. intros Hb. unfold div. by rewrite Hb. Qed.

(** The summary of a list that is not empty: every divisor is checked,
    or bounded away from zero, before it is used. *)
Lemma summarize_defined which text_api test_results actual_duration :
  test_results ≠ [] →
  ∃ row log,
    run_summary which text_api test_results actual_duration
      = (Value (Some row), log) ∧
    total_results_recorded row = length test_results ∧
    success_count row = length (successes test_results) ∧
    actual_rpm row =
      (of_nat (length (successes test_results))
         / Py.max actual_duration (1 # 1000) * 60)%Q ∧
    avg_request_duration row =
      (if (0 <? length (successes test_results))%nat
       then sum (map r_total_time (successes test_results)) * 1000
            / of_nat (length (successes test_results))
       else 0)%Q ∧
    errors_sample row =
      match which with
      | AsrTest => asr_errors_sample test_results
      | TranslationTest => translation_errors_sample test_results
      end.
Proof.
  intros Hne. unfold run_summary, summarize.
  destruct test_results as [|r rest]; [done|].
  set (results := r :: rest).
  change (length results =? 0)%nat with false. cbv iota.
  assert (Htotal : (0 <? length results)%nat = true) by done.
  rewrite Htotal. unfold and_then, pure.
  destruct (0 <? length (successes results))%nat eqn:Hsucc.
  - rewrite !div_defined
      by (first [by apply of_nat_positive | apply max_positive]).
    do 2 eexists. repeat split.
  - rewrite !div_defined
      by (first [by apply of_nat_positive | apply max_positive]).
    do 2 eexists. repeat split.
Qed.

(** C7.  On an empty list of results, the summary is the notice that
    nothing was recorded ([None]) and not a row, and it is reached without
    a single division.  On any list, no division by zero occurs. *)
Theorem empty_results_give_no_data which text_api actual_duration :
  run_summary which text_api [] actual_duration = (Value None, []) ∧
  (∀ test_results,
      fst (run_summary which text_api test_results actual_duration)
        ≠ ZeroDivisionError).
Proof.
  split; [done|]. intros test_results.
  destruct test_results as [|r rest]; [done|].
  destruct (summarize_defined which text_api (r :: rest) actual_duration)
    as (row & log & -> & _); done.
Qed.

Lemma empty_results_give_no_data_witness :
  run_summary AsrTest true [] 60 = (Value None, []) ∧
  fst (run_summary AsrTest true [failed_result "请求超时"] 0) ≠ ZeroDivisionError.
Proof.
  split.
  - exact (proj1 (empty_results_give_no_data AsrTest true 60)).
  - exact (proj2 (empty_results_give_no_data AsrTest true 0)
             [failed_result "请求超时"]).
Defined.

(** *** The achieved rate and the average latency *)

Lemma mean_in_milliseconds test_results :
  ((if (0 <? length (successes test_results))%nat
    then sum (map r_total_time (successes test_results)) * 1000
         / of_nat (length (successes test_results))
    else 0) == mean_success_latency test_results * 1000)%Q.
Proof.
  unfold mean_success_latency.
  destruct (successes test_results) as [|r rest] eqn:Hs; [reflexivity|].
  change (0 <? length (r :: rest))%nat with true. cbv iota.
  field. intros Hzero.
  unfold of_nat, Qeq in Hzero. simpl in Hzero. lia.
Qed.

Lemma max_of_long_duration (actual_duration : Q) :
  (1 # 1000 <= actual_duration)%Q →
  Py.max actual_duration (1 # 1000) = actual_duration.
Proof.
  intros Hle. unfold Py.max.
  by rewrite (proj2 (Qle_bool_iff _ _) Hle).
Qed.

(** C8, as amended.  For a list of results that is not empty, the
    achieved rate of the summary is the number of successes divided by
    [max(duration, 0.001)], times 60, where [duration] is the wall-clock
    duration of the run: it is [successes / duration * 60] for a duration
    of at least a millisecond.  The reported average request duration, in
    milliseconds, is the arithmetic mean of the latencies of the
    successful results only, and 0 when there is no success. *)
Theorem achieved_rate_and_mean_latency :
  summary_formulas (λ d, Py.max d (1 # 1000)) ∧
  (∀ d, (1 # 1000 <= d)%Q → Py.max d (1 # 1000) = d).
Proof.
  split; [|apply max_of_long_duration].
  intros which text_api test_results actual_duration Hne.
  destruct (summarize_defined which text_api test_results actual_duration Hne)
    as (row & log & Hrun & _ & Hcount & Hrate & Havg & _).
  exists row, log. split; [done|]. split; [done|].
  split; [by rewrite Hrate|].
  rewrite Havg. apply mean_in_milliseconds.
Qed.

Lemma achieved_rate_and_mean_latency_witness :
  (∃ row log,
      run_summary TranslationTest true
        [ok_result (1 # 4); failed_result "请求过多 (429)"; ok_result (3 # 4)] 60
        = (Value (Some row), log) ∧
      success_count row = 2%nat ∧
      (actual_rpm row == of_nat 2 / Py.max 60 (1 # 1000) * 60)%Q ∧
      (avg_request_duration row ==
         mean_success_latency
           [ok_result (1 # 4); failed_result "请求过多 (429)"; ok_result (3 # 4)]
         * 1000)%Q) ∧
  Py.max 60 (1 # 1000) = 60%Q.
Proof.
  split.
  - apply (proj1 achieved_rate_and_mean_latency TranslationTest true
             [ok_result (1 # 4); failed_result "请求过多 (429)"; ok_result (3 # 4)]
             60%Q).
    discriminate.
  - apply (proj2 achieved_rate_and_mean_latency 60%Q). by compute.
Defined.

(** C8 as stated fails for a run shorter than a millisecond: with one
    success in half a millisecond the summary gives 60000 a minute, and
    [successes / duration * 60] is 120000. *)
Lemma rate_of_a_short_run_is_capped : ¬ summary_formulas (λ d, d).
Proof.
  intros Hsupposed.
  destruct (Hsupposed AsrTest true [ok_result (1 # 4)] (1 # 2000))
    as (row & log & Hrun & _ & Hrate & _); [discriminate|].
  vm_compute in Hrun. injection Hrun as <- _.
  vm_compute in Hrate. discriminate Hrate.
Qed.

(** *** The tally of error messages *)

Section Weight.
Context (p : string → bool).

Let add (error_msg : string) (count acc : nat) : nat :=
  if p error_msg then (count + acc)%nat else acc.

Lemma add_comm j1 j2 z1 z2 y : add j1 z1 (add j2 z2 y) = add j2 z2 (add j1 z1 y).
Proof. unfold add. destruct (p j1), (p j2); lia. Qed.

(** Counting one more occurrence of the message [k]. *)
Lemma weight_bump (stats : gmap string nat) (k : string) :
  weight p (<[k := (default 0 (stats !! k) + 1)%nat]> stats) =
    (weight p stats + if p k then 1 else 0)%nat.
Proof.
  unfold weight. fold add.
  destruct (stats !! k) as [v|] eqn:Hk; simpl.
  - rewrite <- insert_delete_eq.
    rewrite map_fold_insert_L;
      [|intros; apply add_comm|apply lookup_delete_eq].
    rewrite (map_fold_delete_L add 0%nat k v stats);
      [|intros; apply add_comm|done].
    unfold add. destruct (p k); lia.
  - rewrite map_fold_insert_L; [|intros; apply add_comm|done].
    unfold add. destruct (p k); lia.
Qed.

Lemma weight_error_stats (test_results : list RequestResult) :
  weight p (error_stats test_results) =
    length (filter (λ r, p (r_error_msg r) = true)
                   (failures_with_message test_results)).
Proof.
  unfold error_stats, failures_with_message.
  induction test_results as [|r rest IH] using rev_ind; [done|].
  rewrite foldl_snoc, !filter_app, length_app, <- IH.
  rewrite filter_cons, filter_nil.
  destruct (negb (r_success r) && Py.truthy (r_error_msg r)) eqn:Hfail.
  - rewrite decide_True by done. rewrite weight_bump.
    rewrite filter_cons, filter_nil. destruct (p (r_error_msg r)).
    + by rewrite decide_True.
    + rewrite decide_False by done. simpl. lia.
  - rewrite decide_False by (by intros ?). simpl. lia.
Qed.
End Weight.

Lemma error_type_counts_weight (stats : gmap string nat) (t : error_type) :
  error_type_counts stats t =
    weight (λ error_msg, bool_decide (error_type_of error_msg = t)) stats.
Proof.
  unfold error_type_counts, weight. rewrite !map_fold_foldr.
  induction (map_to_list stats) as [|[error_msg count] l IH]; [done|].
  simpl. unfold add_count at 1. rewrite IH.
  destruct (decide (t = error_type_of error_msg)) as [->|Hne].
  - rewrite bool_decide_eq_true_2 by done. lia.
  - by rewrite bool_decide_eq_false_2.
Qed.

(** Each count is the number of failed results whose message is of its
    type. *)
Lemma error_type_counts_tallied test_results t :
  error_type_counts (error_stats test_results) t = tallied test_results t.
Proof.
  rewrite error_type_counts_weight, weight_error_stats. unfold tallied.
  f_equal. apply list_filter_iff. intros r. apply bool_decide_eq_true.
Qed.

(** Every message has one type. *)
Lemma tallied_total test_results :
  sum_list (map (tallied test_results) error_types) =
    length (failures_with_message test_results).
Proof.
  unfold tallied. induction (failures_with_message test_results) as [|r l IH];
    [done|].
  simpl in *. rewrite <- IH, !filter_cons.
  destruct (error_type_of (r_error_msg r));
    repeat (first [rewrite decide_True by done
                  |rewrite decide_False by done]); simpl; lia.
Qed.

Lemma error_stats_empty test_results :
  error_stats test_results = ∅ → failures_with_message test_results = [].
Proof.
  intros Hempty.
  pose proof (weight_error_stats (λ _, true) test_results) as Hw.
  rewrite Hempty in Hw. unfold weight in Hw. rewrite map_fold_empty in Hw.
  assert (Hall : ∀ l : list RequestResult,
             filter (λ _, true = true) l = l).
  { induction l as [|r l IH]; [done|].
    by rewrite filter_cons, decide_True, IH. }
  rewrite Hall in Hw. symmetry in Hw.
  by apply nil_length_inv.
Qed.

(** C9, as amended.  In the summary of [az_asr_test.py], every failed
    result with a non-empty error message is counted in exactly one of
    the five types 429, 400, timeout, connection and other, chosen by the
    substrings of its message; the five counts add up to the number of
    these results; and the error summary of the persisted row is the
    rendering of these counts. *)
Theorem error_summary_counts_by_type (test_results : list RequestResult) :
  (∀ t, error_type_counts (error_stats test_results) t = tallied test_results t) ∧
  sum_list (map (error_type_counts (error_stats test_results)) error_types) =
    length (failures_with_message test_results) ∧
  persists_type_counts AsrTest.
Proof.
  split; [apply error_type_counts_tallied|]. split.
  - rewrite <- tallied_total. f_equal. apply map_ext. intros t.
    apply error_type_counts_tallied.
  - intros text_api results actual_duration row log Hfail Hrun.
    assert (Hne : results ≠ []) by (by intros ->).
    destruct (summarize_defined AsrTest text_api results actual_duration Hne)
      as (row' & log' & Hrun' & _ & _ & _ & _ & Hsample).
    rewrite Hrun in Hrun'. injection Hrun' as <- _.
    rewrite Hsample. unfold asr_errors_sample.
    destruct (decide (error_stats results = ∅)) as [Hempty|]; [|done].
    by apply error_stats_empty in Hempty.
Qed.

Lemma error_summary_counts_by_type_witness :
  errors_sample
    {| actual_duration := 60; total_results_recorded := 3; success_count := 1;
       error_count := 2; success_rate := 100 # 3; total_chars := 2;
       avg_request_duration := 1000 # 4; actual_rpm := 60 # 60;
       errors_sample := "429错误:1次 | 超时错误:1次" |} =
  render_counts (error_type_counts (error_stats
    [ok_result (1 # 4); failed_result "请求过多 (429)"; failed_result "请求超时"])).
Proof.
  apply (proj2 (proj2 (error_summary_counts_by_type [])) true
           [ok_result (1 # 4); failed_result "请求过多 (429)"; failed_result "请求超时"]
           60%Q _ [(1 # 4, 1); (1, 3); (1, 60); (1000 # 4, 1)]%Q).
  - discriminate.
  - vm_compute. reflexivity.
Defined.

(** C9 as stated fails for [az_translation_test.py]: the error summary
    it persists lists distinct messages and carries no counts.  Two
    failures with the same message give that message, where the counts
    by type would give ["其他错误:2次"]. *)
Lemma translation_summary_has_no_counts : ¬ persists_type_counts TranslationTest.
Proof.
  intros Hsupposed.
  destruct (summarize_defined TranslationTest true
              [failed_result "HTTP错误 (500)"; failed_result "HTTP错误 (500)"] 60)
    as (row & log & Hrun & _ & _ & _ & _ & Hsample); [discriminate|].
  assert (Hfail : failures_with_message
                    [failed_result "HTTP错误 (500)"; failed_result "HTTP错误 (500)"]
                  ≠ []) by (vm_compute; discriminate).
  specialize (Hsupposed true _ 60%Q row log Hfail Hrun).
  rewrite Hsample in Hsupposed. vm_compute in Hsupposed. discriminate Hsupposed.
Qed.

End AggregatorFacts.

(** ** More of the key manager classes *)

Module KeyManagerMoreFacts.
Import KeyManager KeyManagerFacts KeyLookupFacts KeyManagerMore.

(** *** Counting code points *)

Lemma len_app (s t : string) : Py.len (s +:+ t) = (Py.len s + Py.len t)%nat.
Proof.
  induction s as [|a s IH]; [done|].
  change (String a s +:+ t) with (String a (s +:+ t)).
  cbn [Py.len]. destruct (Py.is_continuation a); lia.
Qed.

Lemma len_slice_to (n : nat) (s : string) :
  Py.len (Py.slice_to n s) = Nat.min n (Py.len s).
Proof.
  revert n. induction s as [|a s IH]; intros n; [by destruct n|].
  cbn [Py.slice_to Py.len].
  destruct (Py.is_continuation a) eqn:Ha.
  - cbn [Py.len]. rewrite Ha. apply IH.
  - destruct n as [|n]; [done|]. cbn [Py.len]. rewrite Ha, IH. lia.
Qed.

Lemma len_drop_chars (k : nat) (s : string) :
  Py.len (drop_chars k s) = (Py.len s - k)%nat.
Proof.
  revert k. induction s as [|a s IH]; intros k; [done|].
  cbn [drop_chars Py.len].
  destruct (Py.is_continuation a) eqn:Ha; [apply IH|].
  destruct k as [|k]; [|by rewrite IH].
  cbn [Py.len]. rewrite Ha. lia.
Qed.

Lemma slice_to_app (n : nat) (s t : string) (b : ascii) :
  Py.len s = n → Py.is_continuation b = false →
  Py.slice_to n (s +:+ String b t) = s.
Proof.
  intros Hlen Hb. revert n Hlen.
  induction s as [|a s IH]; intros n Hlen.
  - cbn in Hlen. subst n. change ("" +:+ String b t) with (String b t).
    cbn [Py.slice_to]. by rewrite Hb.
  - change (String a s +:+ String b t) with (String a (s +:+ String b t)).
    cbn [Py.slice_to]. cbn [Py.len] in Hlen.
    destruct (Py.is_continuation a).
    + by rewrite IH.
    + destruct n as [|n]; [lia|]. rewrite IH; [done|lia].
Qed.

Lemma drop_chars_app (k : nat) (s t : string) :
  drop_chars (Py.len s + k) (s +:+ t) = drop_chars k t.
Proof.
  induction s as [|a s IH]; [done|].
  change (String a s +:+ t) with (String a (s +:+ t)).
  cbn [drop_chars Py.len]. by destruct (Py.is_continuation a).
Qed.

Lemma drop_chars_again (k : nat) (s : string) :
  drop_chars 0 (drop_chars k s) = drop_chars k s.
Proof.
  revert k. induction s as [|a s IH]; intros k; [done|].
  cbn [drop_chars].
  destruct (Py.is_continuation a) eqn:Ha; [apply IH|].
  destruct k as [|k]; [|apply IH].
  cbn [drop_chars]. by rewrite Ha.
Qed.

(** X1.  [get_key_abbreviation] returns a key of fewer than eight
    characters (the empty key included) as it is, in full.  For a longer
    key the result has eleven characters: the first four of the key, three
    dots and the last four of the key. *)
Theorem get_key_abbreviation_shape (key : string) :
  ((Py.len key < 8)%nat → get_key_abbreviation key = key) ∧
  ((8 ≤ Py.len key)%nat →
   get_key_abbreviation key = Py.slice_to 4 key +:+ "..." +:+ slice_last 4 key ∧
   Py.len (Py.slice_to 4 key) = 4%nat ∧
   Py.len (slice_last 4 key) = 4%nat ∧
   Py.len (get_key_abbreviation key) = 11%nat).
Proof.
  unfold get_key_abbreviation. split.
  - intros Hshort. apply Nat.ltb_lt in Hshort. rewrite Hshort.
    by rewrite orb_true_r.
  - intros Hlong.
    assert (Htruthy : Py.truthy key = true) by (destruct key; [cbn in Hlong; lia|done]).
    assert (Hnot : (Py.len key <? 8)%nat = false) by (apply Nat.ltb_ge; lia).
    rewrite Htruthy, Hnot. cbn [negb orb].
    assert (H4 : Py.len (Py.slice_to 4 key) = 4%nat) by (rewrite len_slice_to; lia).
    assert (Hl : Py.len (slice_last 4 key) = 4%nat).
    { unfold slice_last. rewrite len_drop_chars. lia. }
    repeat split; try done.
    rewrite !len_app, H4, Hl. done.
Qed.

Lemma get_key_abbreviation_shape_witness :
  get_key_abbreviation "abc123" = "abc123" ∧
  (get_key_abbreviation "0123456789abcdef" =
     Py.slice_to 4 "0123456789abcdef" +:+ "..." +:+ slice_last 4 "0123456789abcdef" ∧
   Py.len (Py.slice_to 4 "0123456789abcdef") = 4%nat ∧
   Py.len (slice_last 4 "0123456789abcdef") = 4%nat ∧
   Py.len (get_key_abbreviation "0123456789abcdef") = 11%nat).
Proof.
  split.
  - apply (proj1 (get_key_abbreviation_shape "abc123")). vm_compute. lia.
  - apply (proj2 (get_key_abbreviation_shape "0123456789abcdef")). vm_compute. lia.
Defined.

(** X2.  Abbreviating twice is abbreviating once: the abbreviation of a
    key is its own abbreviation. *)
Theorem get_key_abbreviation_idempotent (key : string) :
  get_key_abbreviation (get_key_abbreviation key) = get_key_abbreviation key.
Proof.
  destruct (Nat.lt_ge_cases (Py.len key) 8) as [Hshort|Hlong].
  - unfold get_key_abbreviation at 2.
    apply Nat.ltb_lt in Hshort. rewrite Hshort, orb_true_r. done.
  - assert (Hkey : get_key_abbreviation key =
                   Py.slice_to 4 key +:+ "..." +:+ slice_last 4 key).
    { unfold get_key_abbreviation.
      assert (Py.truthy key = true) as -> by (destruct key; [cbn in Hlong; lia|done]).
      assert ((Py.len key <? 8)%nat = false) as -> by (apply Nat.ltb_ge; lia).
      done. }
    assert (H4 : Py.len (Py.slice_to 4 key) = 4%nat) by (rewrite len_slice_to; lia).
    assert (Hl : Py.len (slice_last 4 key) = 4%nat).
    { unfold slice_last. rewrite len_drop_chars. lia. }
    rewrite Hkey. set (first4 := Py.slice_to 4 key). set (last4 := slice_last 4 key).
    unfold get_key_abbreviation.
    assert (Hlen : Py.len (first4 +:+ "..." +:+ last4) = 11%nat).
    { rewrite !len_app. fold first4 in H4. fold last4 in Hl. rewrite H4, Hl. done. }
    assert (Htruthy : Py.truthy (first4 +:+ "..." +:+ last4) = true).
    { destruct (first4 +:+ "..." +:+ last4); [cbn in Hlen; lia|done]. }
    rewrite Htruthy, Hlen. cbn [negb orb Nat.ltb Nat.leb].
    f_equal.
    + apply slice_to_app; [exact H4|done].
    + f_equal. unfold slice_last at 1. rewrite Hlen.
      replace (11 - 4)%nat with (Py.len first4 + 3)%nat
        by (unfold first4; rewrite H4; done).
      rewrite drop_chars_app.
      change (drop_chars 3 ("..." +:+ last4)) with (drop_chars 0 last4).
      apply drop_chars_again.
Qed.

(** *** The constructor *)

(** X3.  However many instances of the key manager are made, the
    refresher thread is started once: by the first constructor that finds
    no thread.  No constructor touches the cache. *)
Theorem refresher_started_once (n : nat) (cv : ClassVars) :
  cache (fst (construct n cv)) = cache cv ∧
  snd (construct n cv) =
    (if _update_thread cv then 0 else Nat.min n 1)%nat ∧
  _update_thread (fst (construct n cv)) = (_update_thread cv || (0 <? n)%nat).
Proof.
  revert cv. induction n as [|n IH]; intros cv.
  - cbn. by destruct (_update_thread cv).
  - cbn [construct]. unfold __init__.
    destruct (_update_thread cv) eqn:Hthread.
    + destruct (IH cv) as (Hcache & Hstarted & Hflag).
      destruct (construct n cv) as [cv2 more]. cbn in *.
      rewrite Hthread in *. by subst more.
    + set (cv1 := {| cache := cache cv; _update_thread := true;
                     _stop_update := false |}).
      destruct (IH cv1) as (Hcache & Hstarted & Hflag).
      destruct (construct n cv1) as [cv2 more]. cbn in *.
      subst more. split; [done|]. split; [lia|done].
Qed.

(** *** The refresher loop *)

Lemma refresher_loop_snoc pause attempts http t σ :
  _update_key_periodically pause (attempts ++ [(http, t)]) σ =
    (_update_key_periodically_turn http t
       (fst (_update_key_periodically pause attempts σ)),
     snd (_update_key_periodically pause attempts σ) ++ [EvSleep pause]).
Proof.
  unfold _update_key_periodically. rewrite foldl_snoc.
  by destruct (foldl _ _ attempts).
Qed.

Lemma last_stored_snoc attempts http t :
  last_stored (attempts ++ [(http, t)]) =
    match refresh_payload http with
    | Some d => Some (d, t)
    | None => last_stored attempts
    end.
Proof. unfold last_stored. by rewrite foldl_snoc. Qed.

(** The state and the trace that the refresher loop leaves. *)
Lemma refresher_loop_result (pause : Q)
    (attempts : list (keys_get_http * Q)) (σ : ClassState) :
  match last_stored attempts with
  | Some (d, t) =>
      slot_value (fst (_update_key_periodically pause attempts σ)) = Some d ∧
      _last_update_time (fst (_update_key_periodically pause attempts σ)) = t
  | None => fst (_update_key_periodically pause attempts σ) = σ
  end ∧
  snd (_update_key_periodically pause attempts σ) =
    replicate (length attempts) (EvSleep pause).
Proof.
  induction attempts as [|[http t] attempts IH] using rev_ind; [done|].
  rewrite refresher_loop_snoc, last_stored_snoc, length_app. cbn [fst snd].
  destruct IH as [IHstate IHtrace]. split.
  - destruct (refresh_payload http) as [d|] eqn:Hp.
    + destruct (successful_refresh_replaces http t
                  (fst (_update_key_periodically pause attempts σ)) d Hp)
        as (Hslot & Htime & _).
      by split.
    + by rewrite failed_refresh_keeps_state.
  - rewrite IHtrace. cbn [length]. rewrite Nat.add_1_r.
    by rewrite replicate_S_end.
Qed.




(** *** The reader, whatever the cache does *)

Lemma retry_loop_discipline obs max_retries remaining :
  (remaining ≤ max_retries)%nat →
  let tr := fst (retry_loop obs max_retries remaining) in
  count_events is_acquire tr = count_events is_release tr ∧
  (count_events is_acquire tr ≤ remaining)%nat ∧
  (count_events is_sleep tr ≤ remaining - 1)%nat ∧
  (snd (retry_loop obs max_retries remaining) = None →
   count_events is_acquire tr = remaining).
Proof.
  induction remaining as [|rest IH]; intros Hle; [done|].
  specialize (IH ltac:(lia)). cbn zeta in IH.
  cbn [retry_loop].
  destruct (retry_loop obs max_retries rest) as [tr r]. cbn [fst snd] in IH.
  destruct IH as (IHbal & IHacq & IHsleep & IHnone).
  assert (Hlast : rest = 0%nat → retry_sleep (max_retries - S rest) max_retries = []).
  { intros ->. unfold retry_sleep.
    destruct (Nat.ltb_spec (max_retries - 1) (max_retries - 1)); [lia|done]. }
  assert (Hsleep : (count_events is_sleep
                      (retry_sleep (max_retries - S rest) max_retries)
                    ≤ if rest is O then 0 else 1)%nat).
  { destruct rest; [by rewrite Hlast|].
    unfold retry_sleep.
    destruct (_ <? _)%nat; [change (1 ≤ 1)%nat|change (0 ≤ 1)%nat]; lia. }
  assert (Hlock : ∀ p, (p = is_acquire ∨ p = is_release) →
            count_events p (retry_sleep (max_retries - S rest) max_retries) = 0%nat).
  { intros p [-> | ->]; unfold retry_sleep; by destruct (_ <? _)%nat. }
  assert (Hnil : ∀ p, count_events p [] = 0%nat) by done.
  destruct (current_key _) as [l|]; [destruct (objects _ !! l)|]; cbn [fst snd];
    rewrite ?count_events_app, ?count_events_cons, ?Hnil, ?Hlock by auto;
    cbn [is_acquire is_release is_sleep];
    rewrite ?count_events_app, ?count_events_cons, ?Hnil, ?Hlock by auto;
    cbn [is_acquire is_release is_sleep].
  - repeat split; try lia. intros [=].
  - repeat split; try lia.
    + destruct rest; lia.
    + intros Hr. rewrite IHnone by done. lia.
  - repeat split; try lia.
    + destruct rest; lia.
    + intros Hr. rewrite IHnone by done. lia.
Qed.

(** X6.  Whatever the cache holds at each attempt,
    [get_azure_key_with_retry] releases the lock as often as it takes it,
    takes it at most [max_retries] times, and sleeps at most
    [max_retries - 1] times (one second each): it returns after at most
    [max_retries - 1] seconds of waiting, and never while holding the
    lock.  It returns [None] only after [max_retries] attempts. *)
Theorem reader_lock_discipline (obs : nat → ClassState) (max_retries : nat) :
  count_events is_acquire (fst (get_azure_key_with_retry obs max_retries)) =
    count_events is_release (fst (get_azure_key_with_retry obs max_retries)) ∧
  (count_events is_acquire (fst (get_azure_key_with_retry obs max_retries))
     ≤ max_retries)%nat ∧
  (count_events is_sleep (fst (get_azure_key_with_retry obs max_retries))
     ≤ max_retries - 1)%nat ∧
  (snd (get_azure_key_with_retry obs max_retries) = None →
   count_events is_acquire (fst (get_azure_key_with_retry obs max_retries))
     = max_retries).
Proof.
  apply (retry_loop_discipline obs max_retries max_retries). lia.
Qed.

Lemma reader_lock_discipline_witness :
  count_events is_acquire (fst (get_azure_key_with_retry (λ _, initial) 3)) = 3%nat.
Proof.
  apply (proj2 (proj2 (proj2 (reader_lock_discipline (λ _, initial) 3)))).
  reflexivity.
Defined.

End KeyManagerMoreFacts.

(** ** More about the request functions *)

Module WorkerMoreFacts.
Import KeyManager KeyLookupFacts Worker WorkerFacts WorkerMore.

#[local] Arguments call_facts : simpl never.

(** The outcome of a function, from the local variables at its end. *)
Lemma try_except_finally_final {B} (env : Env B) request_id body handlers rl :
  result_list (try_except_finally env request_id body handlers rl) =
    rl ++ [{| r_success := success (final_locals body handlers);
              r_total_time := clock_end env - clock_start env;
              r_time_to_first_chunk := None;
              r_input_size := input_size (final_locals body handlers);
              r_output_size := output_size (final_locals body handlers);
              r_error_msg := error_msg (final_locals body handlers);
              r_request_id := request_id;
              r_text := out_text (final_locals body handlers) |}] ∧
  events (try_except_finally env request_id body handlers rl) =
    trace (final_locals body handlers).
Proof.
  unfold try_except_finally, final_locals.
  destruct (body locals0) as [[e|[]] s1]; [|done].
  by destruct (handlers e s1).
Qed.

Lemma acquire_is_local {B} (env : Env B) evs r :
  get_azure_key_with_retry (key_states env) 3 = (evs, r) →
  count_events is_target_post evs = 0%nat ∧
  count_events is_status_post evs = 0%nat ∧
  ∀ c, Forall (post_ok c) evs.
Proof.
  intros Hget.
  pose proof (retry_loop_posts_nothing (key_states env) 3 3) as [Ht Hs].
  unfold get_azure_key_with_retry in Hget. rewrite Hget in Ht, Hs.
  cbn [fst] in Ht, Hs. split; [done|]. split; [done|].
  intros c. clear Hget Ht. revert Hs.
  induction evs as [|e evs IH]; intros Hs; [constructor|].
  rewrite count_events_cons in Hs.
  destruct e; cbn [is_status_post] in Hs; try lia;
    (constructor; [done | apply IH; lia]).
Qed.

Lemma trace_ok_acquire {B} (env : Env B) evs r c :
  get_azure_key_with_retry (key_states env) 3 = (evs, r) →
  trace_ok c 0 0 evs.
Proof. intros H. by destruct (acquire_is_local env evs r H) as (? & ? & ?). Qed.

Lemma trace_ok_nil c : trace_ok c 0 0 [].
Proof. repeat split. constructor. Qed.

Lemma trace_ok_target c nt ns tr endpoint timeout :
  trace_ok c nt ns tr →
  trace_ok c (S nt) ns (tr ++ [EvTargetPost endpoint timeout]).
Proof.
  intros (Ht & Hs & Hok). unfold trace_ok.
  rewrite !count_events_app, !count_events_cons, Ht, Hs, Forall_app.
  cbn. repeat split; [lia | lia | done | by repeat constructor].
Qed.

Lemma trace_ok_status c nt ns tr k code note :
  trace_ok (Some c) nt ns tr → (code =? 200)%Z = false → k = key c →
  trace_ok (Some c) nt (S ns) (tr ++ [EvStatusPost k code note]).
Proof.
  intros (Ht & Hs & Hok) Hcode ->. unfold trace_ok.
  rewrite !count_events_app, !count_events_cons, Ht, Hs, Forall_app.
  cbn. repeat split; [lia | lia | done |].
  repeat constructor. by apply Z.eqb_neq.
Qed.

Lemma call_facts_intro {B} uses_audio (shape_of : B → shape) late max_posts
    side env s nt ns :
  trace_ok (cached_credential env) nt ns (trace s) →
  nt = (if sends uses_audio env then 1 else 0)%nat →
  (ns ≤ max_posts)%nat →
  success s =
    sends uses_audio env
    && answered (λ b, expected shape_of b || late b) env →
  (success s = true → answered late env = false →
   error_msg s = "" ∧ ns = 0%nat) →
  (success s = false → side env → error_msg s ≠ "") →
  call_facts uses_audio shape_of late max_posts side env s.
Proof.
  intros (Ht & Hs & Hok) -> Hmax Hsucc Hclean Hfail.
  unfold call_facts. rewrite Ht, Hs. done.
Qed.

(** Start of a proof about the local variables at the end of a call. *)
Ltac enter_call :=
  unfold final_locals, acquire_key, except_clauses;
  lazymatch goal with
  | |- context [get_azure_key_with_retry (key_states ?env) 3] =>
      let Hget := fresh "Hget" in
      destruct (get_azure_key_with_retry (key_states env) 3)
        as [evs r] eqn:Hget;
      pose proof (trace_ok_acquire env evs r (cached_credential env) Hget)
        as Hevs;
      assert (Hcc : cached_credential env =
                    match r with
                    | Some (σ, l) => objects σ !! l
                    | None => None
                    end)
        by (unfold cached_credential; rewrite Hget; reflexivity);
      clear Hget;
      destruct r as [[σ l]|]; [destruct (objects σ !! l) as [c|]|];
      rewrite Hcc in Hevs;
      destruct env as [t0 t1 uid fr file file_ok read states
                        [ex|[code txt len [ex|b]]] replies]
  end.

Ltac use_equations :=
  repeat match goal with
    | H : (?a =? ?b)%Z = _ |- context [(?a =? ?b)%Z] => rewrite H
    | H : (?a <=? ?b)%Z = _ |- context [(?a <=? ?b)%Z] => rewrite H
    | H : (?a <? ?b)%Z = _ |- context [(?a <? ?b)%Z] => rewrite H
    | H : String.eqb ?a ?b = _ |- context [String.eqb ?a ?b] => rewrite H
    end.

Ltac name_codes :=
  repeat match goal with
    | H : (?x =? _)%Z = true |- _ => is_var x; apply Z.eqb_eq in H; subst x
    end.

Ltac absurd_codes :=
  match goal with
  | H : (_ =? _)%Z = _ |- _ => vm_compute in H; discriminate H
  | H : (_ <=? _)%Z = _ |- _ => vm_compute in H; discriminate H
  | H : (_ <? _)%Z = _ |- _ => vm_compute in H; discriminate H
  end.

Ltac trace_leaf Hevs :=
  repeat first
    [ exact Hevs
    | apply trace_ok_nil
    | eapply trace_ok_target
    | eapply trace_ok_status; [| first [assumption | reflexivity] | reflexivity] ].

Ltac env_leaf Hcc :=
  unfold sends, answered, expected, never_late, raises_late, is_2xx;
  rewrite ?Hcc; cbn -[String.eqb]; use_equations; cbn -[String.eqb].

Ltac success_leaf Hcc :=
  let Hs := fresh "Hs" in
  let Hl := fresh "Hl" in
  cbn [success error_msg]; env_leaf Hcc; intros Hs Hl;
  first [ discriminate Hs | discriminate Hl | split; reflexivity ].

Ltac failure_leaf file_text :=
  let Hs := fresh "Hs" in
  let Hside := fresh "Hside" in
  cbn [success error_msg]; intros Hs Hside;
  first [ discriminate Hs | (cbn; discriminate) | file_text Hside ].

(** The facts at a leaf of the case analysis; [file_text] uses the
    condition on the texts of [FileNotFoundError]. *)
Ltac leaf_facts Hevs Hcc file_text :=
  name_codes;
  first
    [ absurd_codes
    | eapply call_facts_intro;
      [ rewrite Hcc; trace_leaf Hevs
      | env_leaf Hcc; reflexivity
      | repeat constructor
      | cbn [success]; env_leaf Hcc; reflexivity
      | success_leaf Hcc
      | failure_leaf file_text ] ].

Ltac no_file_text H := fail.

Ltac file_text H :=
  let H1 := fresh in
  let H2 := fresh in
  let H3 := fresh in
  cbn; intros ->; destruct H as (H1 & H2 & H3); cbn in H1, H2, H3;
  first [by apply H1 | by apply H2 | by eapply H3].

Lemma text_translation_call_facts (env : Env translation_body) request_id :
  call_facts false translation_shape never_late 1 (λ _, True) env
    (final_locals (test_text_translation_api_try env request_id)
                  (except_clauses env false request_id)).
Proof.
  unfold test_text_translation_api_try.
  enter_call; run_cases.
  all: leaf_facts Hevs Hcc no_file_text.
Qed.

Lemma speech_translation_call_facts (env : Env speech_body) request_id :
  call_facts false speech_shape never_late 1 (λ _, True) env
    (final_locals (test_speech_translation_api_try env request_id)
                  (except_clauses env false request_id)).
Proof.
  unfold test_speech_translation_api_try.
  enter_call; run_cases.
  all: leaf_facts Hevs Hcc no_file_text.
Qed.

Lemma transcription_call_facts (env : Env transcription_body) request_id :
  call_facts true transcription_shape raises_late 1 file_errors_have_text env
    (final_locals (test_transcription_api_try env request_id)
                  (except_clauses env true request_id)).
Proof.
  unfold test_transcription_api_try.
  enter_call; run_cases.
  all: leaf_facts Hevs Hcc file_text.
Qed.

Lemma asr_call_facts (env : Env asr_body) request_id :
  call_facts true asr_shape never_late 2 file_errors_have_text env
    (final_locals (test_asr_short_audio_api_try env request_id)
                  (except_clauses env true request_id)).
Proof.
  unfold test_asr_short_audio_api_try.
  enter_call; run_cases.
  all: leaf_facts Hevs Hcc file_text.
Qed.

(** From the local variables to the outcome of a call. *)
Lemma call_facts_outcome {B} uses_audio (shape_of : B → shape) late max_posts
    side (env : Env B) request_id body handlers rl :
  call_facts uses_audio shape_of late max_posts side env
    (final_locals body handlers) →
  let out := try_except_finally env request_id body handlers rl in
  count_events is_target_post (events out) =
    (if sends uses_audio env then 1 else 0)%nat ∧
  (count_events is_status_post (events out) ≤ max_posts)%nat ∧
  Forall (post_ok (cached_credential env)) (events out) ∧
  ∃ r, result_list out = rl ++ [r] ∧
       r_success r =
         sends uses_audio env
         && answered (λ b, expected shape_of b || late b) env ∧
       (r_success r = true → answered late env = false →
        r_error_msg r = "" ∧
        count_events is_status_post (events out) = 0%nat) ∧
       (r_success r = false → side env → r_error_msg r ≠ "").
Proof.
  intros (Ht & Hs & Hok & Hsucc & Hclean & Hfail) out.
  destruct (try_except_finally_final env request_id body handlers rl)
    as [Hr He].
  subst out. rewrite He, Hr.
  split; [done|]. split; [done|]. split; [done|].
  eexists. split; [reflexivity|]. by cbn.
Qed.

Lemma answered_mono {B} (ok ok' : B → bool) (env : Env B) :
  (∀ b, ok b = true → ok' b = true) →
  answered ok env = true → answered ok' env = true.
Proof.
  intros Himp. unfold answered.
  destruct (target env) as [|r]; [done|].
  destruct (is_2xx _); [|done]. cbn.
  destruct (json r) as [|b]; [done|]. apply Himp.
Qed.

Lemma answered_disjoint {B} (ok late : B → bool) (env : Env B) :
  (∀ b, ok b = true → late b = false) →
  answered ok env = true → answered late env = false.
Proof.
  intros Himp. unfold answered.
  destruct (target env) as [|r]; [done|].
  destruct (is_2xx _); [|done]. cbn.
  destruct (json r) as [|b]; [done|]. apply Himp.
Qed.

Lemma expected_not_late (b : transcription_body) :
  expected transcription_shape b = true → raises_late b = false.
Proof. by destruct b as [[]|[]| |[]]. Qed.

(** The outcome of each of the four functions. *)
Ltac outcome_from facts request_id rl :=
  destruct (call_facts_outcome _ _ _ _ _ _ request_id _ _ rl
              (facts request_id))
    as (Ht & Hs & Hok & r & Hr & Hsucc & Hclean & Hfail).

Ltac outcome_of env thread_id rl :=
  lazymatch goal with
  | |- context [test_text_translation_api] =>
      unfold test_text_translation_api;
      outcome_from (text_translation_call_facts env)
        ("TextTranslation-" +:+ thread_id +:+ "-" +:+ uuid4 env) rl
  | |- context [test_speech_translation_api] =>
      unfold test_speech_translation_api;
      outcome_from (speech_translation_call_facts env)
        ("SpeechTranslation-" +:+ thread_id +:+ "-" +:+ uuid4 env) rl
  | |- context [test_transcription_api] =>
      unfold test_transcription_api;
      outcome_from (transcription_call_facts env)
        ("Transcription-" +:+ thread_id +:+ "-" +:+ uuid4 env) rl
  | |- context [test_asr_short_audio_api] =>
      unfold test_asr_short_audio_api;
      outcome_from (asr_call_facts env)
        ("ASR-" +:+ thread_id +:+ "-" +:+ uuid4 env) rl
  end.


(** X8.  Each call of a request function makes exactly one request to
    the Azure endpoint when the cache hands out a credential and, for the
    two functions that send the audio file, the file is there and can be
    read; otherwise it makes none.  No call retries its request. *)
Theorem request_functions_send_at_most_once :
  one_request_per_call test_text_translation_api false ∧
  one_request_per_call test_speech_translation_api false ∧
  one_request_per_call test_transcription_api true ∧
  one_request_per_call test_asr_short_audio_api true.
Proof.
  repeat split; intros env thread_id rl; outcome_of env thread_id rl;
    exact Ht.
Qed.

(** X9.  In any environment a call posts at most one status report to
    the key manager; [test_asr_short_audio_api], whose 429 branch can
    raise after its report, posts at most two. *)
Theorem status_posts_are_bounded :
  status_posts_bounded test_text_translation_api 1 ∧
  status_posts_bounded test_speech_translation_api 1 ∧
  status_posts_bounded test_transcription_api 1 ∧
  status_posts_bounded test_asr_short_audio_api 2.
Proof.
  repeat split; intros env thread_id rl; outcome_of env thread_id rl;
    exact Hs.
Qed.

(** X10.  Every status report that a request function posts names the
    key of the credential that the cache handed to this call, and none
    reports the code 200. *)
Theorem status_reports_name_the_credential :
  reports_name_credential test_text_translation_api ∧
  reports_name_credential test_speech_translation_api ∧
  reports_name_credential test_transcription_api ∧
  reports_name_credential test_asr_short_audio_api.
Proof.
  repeat split; intros env thread_id rl; outcome_of env thread_id rl;
    exact Hok.
Qed.

(** X11.  The record that a call appends is marked successful exactly
    when the request was sent and the endpoint answered 2xx with a payload
    of the expected shape.  [test_transcription_api] also marks it
    successful for the payloads on which it raises after setting the
    flag. *)
Theorem success_flag_characterised :
  success_flag_is test_text_translation_api false translation_shape never_late ∧
  success_flag_is test_speech_translation_api false speech_shape never_late ∧
  success_flag_is test_transcription_api true transcription_shape raises_late ∧
  success_flag_is test_asr_short_audio_api true asr_shape never_late.
Proof.
  repeat split; intros env thread_id rl; outcome_of env thread_id rl;
    by exists r.
Qed.



(** X13.  A request that is sent and answered 2xx with a payload of the
    expected shape gives a record that is marked successful and has an
    empty error message, and the call posts no status report. *)
Theorem expected_answers_give_clean_records :
  success_is_clean test_text_translation_api false translation_shape ∧
  success_is_clean test_speech_translation_api false speech_shape ∧
  success_is_clean test_transcription_api true transcription_shape ∧
  success_is_clean test_asr_short_audio_api true asr_shape.
Proof.
  repeat split; intros env thread_id rl Hyes;
    apply andb_true_iff in Hyes as [Hsends Hans];
    outcome_of env thread_id rl;
    (assert (Hflag : r_success r = true)
       by (rewrite Hsucc, Hsends; cbn [andb];
           eapply answered_mono; [|exact Hans];
           intros b Hb; by rewrite Hb));
    exists r; (split; [done|]); (split; [done|]);
    (apply Hclean; [done|]);
    (eapply answered_disjoint; [|exact Hans]);
    first [exact expected_not_late | done].
Qed.

Lemma expected_answers_give_clean_records_witness :
  ∃ r, result_list (test_text_translation_api
                      (env_with_key (response_of 200 (inr (TlTranslations "你好"))))
                      "Request-0" []) = [] ++ [r] ∧
       r_success r = true ∧ r_error_msg r = "" ∧
       count_events is_status_post
         (events (test_text_translation_api
                    (env_with_key (response_of 200 (inr (TlTranslations "你好"))))
                    "Request-0" [])) = 0%nat.
Proof.
  apply (proj1 expected_answers_give_clean_records
           (env_with_key (response_of 200 (inr (TlTranslations "你好"))))
           "Request-0" []).
  reflexivity.
Defined.

(** *** [api_worker] *)

Lemma api_worker_appends {B}
    (f : Env B → string → list RequestResult → Outcome) prefix :
  (∀ env thread_id rl,
     ∃ r, result_list (f env thread_id rl) = rl ++ [r] ∧
          r_request_id r = prefix +:+ thread_id +:+ "-" +:+ uuid4 env ∧
          exit (f env thread_id rl) = inr tt) →
  ∀ w sh,
    ∃ r, api_worker f w sh =
           {| test_results := test_results sh ++ [r];
              request_counter := (request_counter sh + 1)%Z |} ∧
         r_request_id r =
           prefix +:+ w_thread_id w +:+ "-" +:+ uuid4 (w_env w).
Proof.
  intros Hf w sh. unfold api_worker.
  destruct (Hf (w_env w) (w_thread_id w) (test_results sh))
    as (r & Hr & Hid & Hexit).
  rewrite Hexit, Hr. by exists r.
Qed.

Lemma run_workers_counts {B}
    (f : Env B → string → list RequestResult → Outcome) prefix :
  (∀ env thread_id rl,
     ∃ r, result_list (f env thread_id rl) = rl ++ [r] ∧
          r_request_id r = prefix +:+ thread_id +:+ "-" +:+ uuid4 env ∧
          exit (f env thread_id rl) = inr tt) →
  counter_counts_records f prefix.
Proof.
  intros Hf workers. cbn zeta.
  induction workers as [|w workers IH] using rev_ind; [done|].
  unfold run_workers in *. rewrite foldl_snoc.
  destruct IH as [IHc IHr].
  destruct (api_worker_appends f prefix Hf w
              (foldl (λ sh w, api_worker f w sh) no_results workers))
    as (r & -> & Hid).
  cbn [test_results request_counter].
  rewrite IHc, length_app, !map_app, IHr. cbn. rewrite Hid. split; [lia|done].
Qed.


End WorkerMoreFacts.

(** ** More about the dispatcher *)

Module DispatcherMoreFacts.
Import Dispatcher DispatcherFacts DispatcherMore.

Local Open Scope Q_scope.

Lemma Qle_bool_false (a b : Q) : Qle_bool a b = false → b < a.
Proof.
  intros H. apply Qnot_le_lt. intros Hle.
  apply Qle_bool_iff in Hle. congruence.
Qed.

Lemma Qlt_bool_false (a b : Q) : Qlt_bool a b = false → b <= a.
Proof.
  unfold Qlt_bool. rewrite negb_false_iff. apply Qle_bool_iff.
Qed.

(** What [fire] does to the index, the fire time and the workers. *)
Lemma fire_steps request_interval current_time st :
  ∃ k : Z,
    (1 ≤ k)%Z ∧
    request_id (fire request_interval current_time st) = (request_id st + k)%Z ∧
    next_time (fire request_interval current_time st) ==
      next_time st + inject_Z k * request_interval ∧
    spawned (fire request_interval current_time st) =
      spawned st ++ [request_id st].
Proof.
  unfold fire.
  set (skips := Py.int _).
  destruct (Qlt_bool _ _); [destruct (0 <? _)%Z eqn:Hpos|]; simpl.
  - apply Z.ltb_lt in Hpos. exists (1 + skips)%Z.
    split; [lia|]. split; [lia|]. split; [|done].
    rewrite inject_Z_plus. ring.
  - exists 1%Z. split; [lia|]. split; [lia|]. split; [|done].
    change (inject_Z 1) with 1. ring.
  - exists 1%Z. split; [lia|]. split; [lia|]. split; [|done].
    change (inject_Z 1) with 1. ring.
Qed.

(** Where the fire time is after [fire], for a positive interval. *)
Lemma fire_lands request_interval current_time st :
  0 < request_interval →
  current_time - request_interval <
    next_time (fire request_interval current_time st) ∧
  (next_time (fire request_interval current_time st) <= current_time ∨
   next_time (fire request_interval current_time st) ==
     next_time st + request_interval).
Proof.
  intros Hi. unfold fire.
  destruct (Qlt_bool _ _) eqn:Hlate.
  - apply Qlt_bool_iff in Hlate.
    set (delay := current_time - (next_time st + request_interval)) in *.
    assert (Hdelay : 0 < delay) by (unfold delay; lra).
    assert (Hint : Py.int (delay / request_interval)
                   = Qfloor (delay / request_interval)).
    { apply int_is_floor. by apply delay_in_intervals_nonneg. }
    rewrite Hint.
    pose proof (Qfloor_le (delay / request_interval)) as Hlow.
    pose proof (Qlt_floor (delay / request_interval)) as Hhigh.
    set (skips := Qfloor (delay / request_interval)) in *.
    assert (Hmul : delay / request_interval * request_interval == delay).
    { field. lra. }
    assert (Hlow' : inject_Z skips * request_interval <= delay).
    { rewrite <- Hmul. apply Qmult_le_compat_r; [done|lra]. }
    assert (Hhigh' : delay < inject_Z (skips + 1) * request_interval).
    { rewrite <- Hmul at 1. by apply Qmult_lt_compat_r. }
    rewrite inject_Z_plus in Hhigh'. change (inject_Z 1) with 1 in Hhigh'.
    destruct (0 <? skips)%Z eqn:Hpos; simpl.
    + unfold delay in *. split; [lra|]. left. lra.
    + apply Z.ltb_ge in Hpos.
      assert (Hzero : skips = 0%Z).
      { assert (0 <= skips)%Z; [|lia].
        change 0%Z with (Qfloor 0). apply Qfloor_resp_le.
        by apply delay_in_intervals_nonneg. }
      rewrite Hzero in Hhigh'. change (inject_Z 0) with 0 in Hhigh'.
      unfold delay in *. split; [lra|]. left. lra.
  - apply Qlt_bool_false in Hlate. simpl. split; [lra|]. by right.
Qed.

(** A property that the turns keep holds when the loop ends. *)
Lemma loop_invariant (P : State → Prop) start_run_time test_duration_seconds
    request_interval readings st :
  P st →
  (∀ st current_time,
     P st → current_time - start_run_time < test_duration_seconds →
     P (turn request_interval current_time st)) →
  P (dispatcher_loop start_run_time test_duration_seconds request_interval
       readings st).
Proof.
  intros Hst Hturn. revert st Hst.
  induction readings as [|[stop current_time] rest IH]; intros st Hst; simpl;
    [done|].
  destruct stop; [done|].
  destruct (Qle_bool _ _) eqn:Hend; [done|].
  apply IH, Hturn; [done|]. by apply Qle_bool_false.
Qed.

Lemma turn_ids_increase request_interval current_time st :
  ids_increase st → ids_increase (turn request_interval current_time st).
Proof.
  intros (Hsorted & Hbelow & Hnonneg). unfold turn.
  destruct (Qle_bool _ _); [|done].
  destruct (fire_steps request_interval current_time st)
    as (k & Hk & Hid & _ & Hspawned).
  unfold ids_increase. rewrite Hid, Hspawned.
  split; [|split; [|lia]].
  - intros i j a b Hij Hi Hj.
    apply lookup_app_Some in Hj as [Hj|[Hlen Hj]].
    + apply lookup_app_Some in Hi as [Hi|[Hlen _]].
      * by apply (Hsorted i j).
      * apply lookup_lt_Some in Hj. lia.
    + apply list_lookup_singleton_Some in Hj as [Hj0 <-].
      apply lookup_app_Some in Hi as [Hi|[Hlen' Hi]].
      * apply (proj1 (Forall_lookup _ _) Hbelow) in Hi. lia.
      * apply list_lookup_singleton_Some in Hi as [Hi _]. lia.
  - apply Forall_app. split.
    + eapply Forall_impl; [exact Hbelow|]. intros i Hi. simpl in Hi. lia.
    + repeat constructor; lia.
Qed.

Lemma turn_on_grid request_interval t current_time st :
  on_grid request_interval t st →
  on_grid request_interval t (turn request_interval current_time st).
Proof.
  unfold on_grid, turn. intros Hgrid.
  destruct (Qle_bool _ _); [|done].
  destruct (fire_steps request_interval current_time st)
    as (k & _ & -> & -> & _).
  rewrite Hgrid, inject_Z_plus. ring.
Qed.

Lemma turn_counts request_interval current_time st :
  (Z.of_nat (length (spawned st)) ≤ request_id st)%Z →
  (Z.of_nat (length (spawned (turn request_interval current_time st)))
   ≤ request_id (turn request_interval current_time st))%Z.
Proof.
  unfold turn. intros Hle.
  destruct (Qle_bool _ _); [|done].
  destruct (fire_steps request_interval current_time st)
    as (k & Hk & -> & _ & ->).
  rewrite length_app. simpl. lia.
Qed.

Lemma turn_within_duration start_run_time test_duration_seconds
    request_interval current_time st :
  0 < request_interval →
  current_time - start_run_time < test_duration_seconds →
  within_duration start_run_time test_duration_seconds request_interval st →
  within_duration start_run_time test_duration_seconds request_interval
    (turn request_interval current_time st).
Proof.
  intros Hi Hnow Hst. unfold turn.
  destruct (Qle_bool _ _) eqn:Hfire; [|done].
  apply Qle_bool_iff in Hfire. right.
  destruct (fire_lands request_interval current_time st Hi)
    as [_ [Hle|Heq]]; lra.
Qed.

Lemma dispatcher_ids_nonneg start_run_time test_duration_seconds
    request_interval t readings :
  (0 ≤ request_id (dispatcher start_run_time test_duration_seconds
                     request_interval t readings))%Z.
Proof.
  unfold dispatcher.
  apply (loop_invariant (λ st, (0 ≤ request_id st)%Z)); [done|].
  intros st current_time Hst _.
  pose proof (turn_request_id_grows request_interval current_time st). lia.
Qed.

(** X15.  The workers that the dispatcher starts have increasing
    indices, between 0 and the current [request_id]: no two threads get
    the same name ["Request-i"], whatever the clock does. *)
Theorem dispatcher_thread_ids_increase
    (start_run_time test_duration_seconds request_interval t : Q)
    (readings : list (bool * Q)) :
  ids_increase (dispatcher start_run_time test_duration_seconds
                  request_interval t readings).
Proof.
  unfold dispatcher. apply loop_invariant.
  - split; [|split; [constructor|done]].
    intros i j a b _ Hi. by destruct i.
  - intros st current_time Hst _. by apply turn_ids_increase.
Qed.






End DispatcherMoreFacts.

(** ** More about the summary *)

Module AggregatorMoreFacts.
Import Worker WorkerFacts WorkerMore WorkerMoreFacts.
Import Aggregator AggregatorFacts AggregatorMore.

Local Open Scope Q_scope.

Lemma successes_and_failures (test_results : list RequestResult) :
  (length (successes test_results) + length (failures test_results))%nat
  = length test_results.
Proof.
  unfold successes, failures.
  induction test_results as [|r rest IH]; [done|].
  rewrite !filter_cons. destruct (r_success r).
  - rewrite decide_True, decide_False by done. simpl. lia.
  - rewrite decide_False, decide_True by done. simpl. lia.
Qed.

Lemma of_nat_le (n m : nat) : (n ≤ m)%nat → of_nat n <= of_nat m.
Proof. intros H. unfold of_nat. rewrite <- Zle_Qle. lia. Qed.

(** The counts and the success rate of the summary. *)
Lemma summarize_counts which text_api test_results actual_duration :
  test_results ≠ [] →
  ∃ row log,
    run_summary which text_api test_results actual_duration
      = (Value (Some row), log) ∧
    total_results_recorded row = length test_results ∧
    success_count row = length (successes test_results) ∧
    error_count row =
      (length test_results - length (successes test_results))%nat ∧
    success_rate row =
      of_nat (length (successes test_results))
        / of_nat (length test_results) * 100.
Proof.
  intros Hne. unfold run_summary, summarize.
  destruct test_results as [|r rest]; [done|].
  set (results := r :: rest).
  change (length results =? 0)%nat with false. cbv iota.
  assert (Htotal : (0 <? length results)%nat = true) by done.
  rewrite Htotal. unfold and_then, pure.
  destruct (0 <? length (successes results))%nat eqn:Hsucc.
  - rewrite !div_defined
      by (first [by apply of_nat_positive | apply max_positive]).
    do 2 eexists. repeat split.
  - rewrite !div_defined
      by (first [by apply of_nat_positive | apply max_positive]).
    do 2 eexists. repeat split.
Qed.

(** X19.  In the row of a summary, the success count and the error
    count add up to the number of results, the error count is the number
    of results that are not marked successful, and the success rate is
    the share of the successes in percent, between 0 and 100. *)
Theorem summary_counts_add_up which text_api
    (test_results : list RequestResult) (actual_duration : Q) :
  test_results ≠ [] →
  ∃ row log,
    run_summary which text_api test_results actual_duration
      = (Value (Some row), log) ∧
    (success_count row + error_count row)%nat = total_results_recorded row ∧
    total_results_recorded row = length test_results ∧
    error_count row = length (failures test_results) ∧
    success_rate row ==
      of_nat (success_count row) / of_nat (total_results_recorded row) * 100 ∧
    0 <= success_rate row <= 100.
Proof.
  intros Hne.
  destruct (summarize_counts which text_api test_results actual_duration Hne)
    as (row & log & Hrun & Htotal & Hsucc & Herr & Hrate).
  exists row, log. split; [done|].
  pose proof (successes_and_failures test_results) as Hsum.
  rewrite Htotal, Hsucc, Herr, Hrate.
  split; [lia|]. split; [done|]. split; [lia|]. split; [reflexivity|].
  assert (Hpos : 0 < of_nat (length test_results)).
  { unfold of_nat. change 0 with (inject_Z 0). rewrite <- Zlt_Qlt.
    destruct test_results; [done|]. simpl. lia. }
  assert (Hle : of_nat (length (successes test_results))
                <= of_nat (length test_results)).
  { apply of_nat_le. lia. }
  assert (Hnonneg : 0 <= of_nat (length (successes test_results))).
  { change 0 with (of_nat 0). apply of_nat_le. lia. }
  split.
  - apply Qmult_le_0_compat; [|lra].
    apply Qle_shift_div_l; [done|]. lra.
  - assert (of_nat (length (successes test_results))
            / of_nat (length test_results) <= 1); [|lra].
    apply Qle_shift_div_r; [done|]. lra.
Qed.

Lemma summary_counts_add_up_witness :
  ∃ row log,
    run_summary AsrTest true [ok_result (1 # 2); failed_result "请求超时"] 60
      = (Value (Some row), log) ∧
    (success_count row + error_count row)%nat = total_results_recorded row ∧
    total_results_recorded row =
      length [ok_result (1 # 2); failed_result "请求超时"] ∧
    error_count row =
      length (failures [ok_result (1 # 2); failed_result "请求超时"]) ∧
    success_rate row ==
      of_nat (success_count row) / of_nat (total_results_recorded row) * 100 ∧
    0 <= success_rate row <= 100.
Proof.
  apply (summary_counts_add_up AsrTest true
           [ok_result (1 # 2); failed_result "请求超时"] 60).
  discriminate.
Defined.

(** X20.  [error_stats] maps each message to the number of failed
    results that carry it, and has no entry for a message that no failed
    result carries. *)
Theorem error_stats_counts_each_message
    (test_results : list RequestResult) (error_msg : string) :
  error_stats test_results !! error_msg =
    if (0 <? occurrences error_msg test_results)%nat
    then Some (occurrences error_msg test_results)
    else None.
Proof.
  unfold occurrences, error_stats, failures_with_message.
  induction test_results as [|r rest IH] using rev_ind; [done|].
  rewrite foldl_snoc, !filter_app, length_app.
  rewrite (filter_cons _ r), filter_nil.
  destruct (negb (r_success r) && Py.truthy (r_error_msg r)) eqn:Hfail.
  - rewrite decide_True by done. rewrite filter_cons, filter_nil.
    destruct (decide (r_error_msg r = error_msg)) as [Heq|Hne].
    + rewrite Heq, lookup_insert_eq, IH. simpl.
      rewrite Nat.add_1_r.
      destruct (length _); simpl; [done|]. f_equal. lia.
    + rewrite lookup_insert_ne by done. rewrite IH. simpl.
      by rewrite Nat.add_0_r.
  - rewrite decide_False by (by intros ?). simpl.
    by rewrite IH, Nat.add_0_r.
Qed.

(** X21.  The error sample of [az_translation_test.py] joins messages
    of failed results, each once, and as many of the distinct messages as
    there are, up to five: with at most five distinct messages none is
    left out. *)
Theorem translation_sample_lists_distinct_messages
    (test_results : list RequestResult) :
  ∃ messages,
    translation_errors_sample test_results = Py.join " | " messages ∧
    length messages = Nat.min 5 (size (distinct_messages test_results)) ∧
    NoDup messages ∧
    Forall (λ error_msg,
              error_msg ∈ distinct_messages test_results ∧
              (0 < occurrences error_msg test_results)%nat)
           messages.
Proof.
  exists (take 5 (elements (distinct_messages test_results))).
  split; [done|]. split; [by rewrite length_take|]. split.
  - apply (sublist_NoDup _ (elements (distinct_messages test_results)));
      first [apply sublist_take | apply NoDup_elements].
  - apply Forall_take, Forall_forall. intros error_msg Hin.
    apply elem_of_elements in Hin. split; [done|].
    unfold distinct_messages in Hin.
    apply elem_of_list_to_set, list_elem_of_fmap in Hin as (r & -> & Hr).
    unfold occurrences.
    assert (Hfilter : r ∈ filter (λ r', r_error_msg r' = r_error_msg r)
                          (failures_with_message test_results)).
    { by apply list_elem_of_filter. }
    destruct (filter _ _); [by apply elem_of_nil in Hfilter|]. simpl. lia.
Qed.

(** *** From the workers to the summary *)

Lemma truthy_message (error_msg : string) :
  error_msg ≠ "" → Py.truthy error_msg = true.
Proof. by destruct error_msg. Qed.

Lemma failures_with_message_all (test_results : list RequestResult) :
  Forall (λ r, r_success r = false → r_error_msg r ≠ "") test_results →
  failures_with_message test_results = failures test_results.
Proof.
  unfold failures_with_message, failures.
  induction 1 as [|r rest Hr _ IH]; [done|].
  rewrite !filter_cons, IH. destruct (r_success r) eqn:Hs.
  - by rewrite !decide_False by done.
  - rewrite !decide_True; [done..|].
    simpl. by apply truthy_message, Hr.
Qed.

(** The records of a run, when each call leaves a record that has a
    message if it is a failure. *)
Lemma run_workers_messages {B}
    (f : Env B → string → list RequestResult → Outcome) (side : Env B → Prop) :
  (∀ env thread_id rl,
     side env →
     ∃ r, result_list (f env thread_id rl) = rl ++ [r] ∧
          exit (f env thread_id rl) = inr tt ∧
          (r_success r = false → r_error_msg r ≠ "")) →
  ∀ workers,
    workers_satisfy side workers →
    length (test_results (run_workers f workers no_results)) = length workers ∧
    Forall (λ r, r_success r = false → r_error_msg r ≠ "")
      (test_results (run_workers f workers no_results)).
Proof.
  intros Hf workers.
  induction workers as [|w workers IH] using rev_ind; intros Hside.
  { split; [done|constructor]. }
  apply Forall_app in Hside as [Hrest Hw].
  apply Forall_inv in Hw.
  destruct (IH Hrest) as [IHlen IHall].
  unfold run_workers in *. rewrite foldl_snoc.
  set (sh := foldl (λ sh w, api_worker f w sh) no_results workers) in *.
  destruct (Hf (w_env w) (w_thread_id w) (test_results sh) Hw)
    as (r & Hr & Hexit & Hmsg).
  assert (Hstep : test_results (api_worker f w sh) = test_results sh ++ [r]).
  { unfold api_worker. by rewrite Hexit, Hr. }
  rewrite Hstep, !length_app, IHlen. split; [done|].
  apply Forall_app. split; [done|]. by constructor.
Qed.

Lemma summarised_after_run {B}
    (f : Env B → string → list RequestResult → Outcome) (side : Env B → Prop) :
  (∀ env thread_id rl,
     side env →
     ∃ r, result_list (f env thread_id rl) = rl ++ [r] ∧
          exit (f env thread_id rl) = inr tt ∧
          (r_success r = false → r_error_msg r ≠ "")) →
  every_failure_is_summarised f side.
Proof.
  intros Hf which text_api workers actual_duration Hne Hside.
  destruct (run_workers_messages f side Hf workers Hside) as [Hlen Hall].
  set (results := test_results (run_workers f workers no_results)) in *.
  assert (Hresults : results ≠ []).
  { intros Hnil. rewrite Hnil in Hlen. by destruct workers. }
  destruct (summarize_counts which text_api results actual_duration Hresults)
    as (row & log & Hrun & Htotal & Hsucc & Herr & _).
  exists row, log. split; [done|].
  pose proof (successes_and_failures results) as Hsum.
  rewrite (failures_with_message_all results Hall), Hsucc, Herr.
  split; lia.
Qed.

(** The record of a call has a message when it is a failure. *)
Ltac call_returns :=
  lazymatch goal with
  | |- exit (try_except_finally ?env ?rid ?body
               (except_clauses ?env ?b ?rid) ?rl) = _ =>
      destruct (try_except_finally_appends_one env b rid body rl)
        as (? & _ & _ & ?); assumption
  end.

Ltac failure_has_message env thread_id rl :=
  outcome_of env thread_id rl;
  match goal with
  | Hrec : result_list _ = _ ++ [?x],
    Hmsg : r_success ?x = false → _ → r_error_msg ?x ≠ "" |- _ =>
      exists x; split; [exact Hrec|];
      split; [call_returns|];
      let Hfailed := fresh "Hfailed" in
      intros Hfailed; by apply Hmsg
  end.



End AggregatorMoreFacts.

(** ** The plan of the legacy [run_test] *)

Module LegacyFacts.
Import Dispatcher DispatcherFacts DispatcherMoreFacts Legacy.

Local Open Scope Q_scope.

Lemma Qeq_bool_false (a b : Q) : Qeq_bool a b = false → ¬ a == b.
Proof. intros H Heq. apply Qeq_bool_iff in Heq. congruence. Qed.

(** The duration in seconds is never 0: a duration of 0 or [None] gives
    way to the minutes, and those to 60 seconds. *)
Lemma test_duration_seconds_nonzero (c : Config) :
  ¬ test_duration_seconds c == 0.
Proof.
  unfold test_duration_seconds, truthy_number.
  destruct (TEST_DURATION_SECONDS c) as [s|]; simpl.
  - destruct (Qeq_bool s 0) eqn:Hs; simpl.
    + destruct (TEST_DURATION_MINUTES c) as [m|]; simpl; [|done].
      destruct (Qeq_bool m 0) eqn:Hm; simpl; [done|].
      apply Qeq_bool_false in Hm. intros Hzero. apply Hm.
      lra.
    + by apply Qeq_bool_false.
  - destruct (TEST_DURATION_MINUTES c) as [m|]; simpl; [|done].
    destruct (Qeq_bool m 0) eqn:Hm; simpl; [done|].
    apply Qeq_bool_false in Hm. intros Hzero. apply Hm. lra.
Qed.

(** X23.  With the audio file in place, the legacy [run_test] gives up
    before starting a worker only when no positive total is set and the
    duration in seconds is negative.  A duration of 0 does not lead
    there, although the message asks for a duration above 0: 0 and [None]
    give way to the minutes, and those to 60 seconds. *)
Theorem legacy_plan_fails_on_negative_duration (c : Config) :
  run_test_plan false c = None →
  test_duration_seconds c < 0 ∧ (default 0 (TOTAL_REQUESTS c) ≤ 0)%Z.
Proof.
  unfold run_test_plan. cbv zeta. intros Hnone.
  pose proof (test_duration_seconds_nonzero c) as Hnonzero.
  assert (Hdur : negb (Qeq_bool (test_duration_seconds c) 0)
                 && Qlt_bool 0 (test_duration_seconds c) = false
                 → test_duration_seconds c < 0).
  { intros Hfalse. apply andb_false_iff in Hfalse as [Hz|Hlt].
    - apply negb_false_iff, Qeq_bool_iff in Hz. done.
    - apply Qlt_bool_false in Hlt.
      destruct (Qlt_le_dec (test_duration_seconds c) 0) as [|Hge]; [done|].
      exfalso. apply Hnonzero. lra. }
  destruct (TOTAL_REQUESTS c) as [total|]; simpl.
  - destruct (negb (total =? 0)%Z && (0 <? total)%Z) eqn:Htotal;
      [discriminate Hnone|].
    destruct (negb _ && Qlt_bool _ _) eqn:Hd; [discriminate Hnone|].
    split; [by apply Hdur|].
    apply andb_false_iff in Htotal as [Hz|Hlt].
    + apply negb_false_iff, Z.eqb_eq in Hz. lia.
    + apply Z.ltb_ge in Hlt. lia.
  - destruct (negb _ && Qlt_bool _ _) eqn:Hd; [discriminate Hnone|].
    split; [by apply Hdur|done].
Qed.

Lemma legacy_plan_fails_on_negative_duration_witness :
  test_duration_seconds negative_config < 0 ∧
  (default 0 (TOTAL_REQUESTS negative_config) ≤ 0)%Z.
Proof.
  apply (legacy_plan_fails_on_negative_duration negative_config).
  reflexivity.
Defined.

(** X24.  When the legacy [run_test] starts, with a number of workers
    that is not negative, it starts no more workers than [MAX_WORKERS]
    and no more workers than it has queued tasks; in the mode that runs
    for a duration, the queue holds at least the requests of the target
    rate over that duration, and otherwise exactly [TOTAL_REQUESTS]. *)
Theorem legacy_plan_sizes (c : Config) (p : Plan) :
  run_test_plan false c = Some p →
  (0 ≤ MAX_WORKERS c)%Z →
  (actual_workers p ≤ MAX_WORKERS c)%Z ∧
  (actual_workers p ≤ num_requests_to_start p)%Z ∧
  if use_duration p
  then TARGET_RPM c / 60 * test_duration_seconds c
       <= inject_Z (num_requests_to_start p)
  else TOTAL_REQUESTS c = Some (num_requests_to_start p).
Proof.
  unfold run_test_plan. cbv zeta. intros Hplan Hmax.
  assert (Hceil : ∀ x z, x <= inject_Z (Z.max (Qceiling x) z)).
  { intros x z. apply Qle_trans with (inject_Z (Qceiling x)).
    - apply Qle_ceiling.
    - rewrite <- Zle_Qle. lia. }
  destruct (TOTAL_REQUESTS c) as [total|]; simpl in Hplan.
  - destruct (negb (total =? 0)%Z && (0 <? total)%Z) eqn:Htotal.
    + inversion Hplan; subst; simpl. split; [lia|]. split; [lia|done].
    + destruct (negb _ && Qlt_bool _ _); [|discriminate Hplan].
      inversion Hplan; subst; simpl. split; [lia|]. split; [lia|].
      apply Hceil.
  - destruct (negb _ && Qlt_bool _ _); [|discriminate Hplan].
    inversion Hplan; subst; simpl. split; [lia|]. split; [lia|].
    apply Hceil.
Qed.

Lemma legacy_plan_sizes_witness :
  (actual_workers module_plan ≤ MAX_WORKERS module_config)%Z ∧
  (actual_workers module_plan ≤ num_requests_to_start module_plan)%Z ∧
  TARGET_RPM module_config / 60 * test_duration_seconds module_config
    <= inject_Z (num_requests_to_start module_plan).
Proof.
  apply (legacy_plan_sizes module_config module_plan).
  - reflexivity.
  - vm_compute. discriminate.
Defined.

End LegacyFacts.
